(** * autosize.js: reporting the rendered document size to the host window

    The repository holds one script, [src/autosize.js], in two revisions.
    Both define a global function [_adjust] that measures the document and
    forwards a (width, height) pair to the host operation
    [_rpc_adjustWindowToContent], and both assign to the global [onload] a
    handler that installs a [ResizeObserver] whose callback is
    [entries => _adjust()].

    - Variant A sums parsed computed-style margins and borders of
      [document.body] with its [scrollWidth], takes the height from
      [document.documentElement.getBoundingClientRect()], and observes
      [document.documentElement].
    - Variant B forwards twice [offsetWidth] and [offsetHeight] of
      [document.documentElement], and observes [document.body].

    The development is a shallow embedding: ECMAScript numbers are IEEE 754
    binary64 values (the executable specification [SpecFloat] of the
    Standard Library), the DOM is a record that the script only reads, and
    the script's effects are threaded through a state monad over a [World]
    that records, in one execution trace, the inbound signals and the
    outbound calls. *)

From Stdlib Require Import ZArith List String Ascii Bool Lia.
From Stdlib Require Import Floats.SpecFloat.
From ExtLib Require Import Structures.Monad Structures.MonadState.
From ExtLib Require Import Data.Monads.StateMonad.
Import ListNotations.
Import MonadNotation.

Local Open Scope Z_scope.
Local Open Scope monad_scope.

Set Implicit Arguments.

(* ===================================================================== *)
(** ** ECMAScript numbers *)
(* ===================================================================== *)

Module Number.

(** The Number type is binary64: 53 bits of precision, infinities at
    exponent 1024. All NaNs are one value, as they are for a script. *)
Definition prec : Z := 53.
Definition emax : Z := 1024.

Definition number : Type := spec_float.

Definition nan : number := S754_nan.
Definition zero : number := S754_zero false.

(** The binary [+] and [*] on two Number operands. *)
Definition add (x y : number) : number := SFadd prec emax x y.
Definition mul (x y : number) : number := SFmul prec emax x y.

(** The Number nearest an integer (an integer literal of the script, or
    an integer-valued DOM attribute). *)
Definition of_Z (z : Z) : number := binary_normalize prec emax z 0 false.

(** [Number.isNaN]. *)
Definition isNaN (x : number) : bool :=
  match x with S754_nan => true | _ => false end.

(** [x >= 0] as the script would evaluate it: false on NaN, true on both
    zeros, on positive finite values and on +Infinity. *)
Definition nonneg (x : number) : bool := SFleb zero x.

(** [x !== y] restricted to numbers: the negation of IEEE equality. *)
Definition neqb (x y : number) : bool := negb (SFeqb x y).

End Number.

Import Number.

Declare Scope number_scope.
Delimit Scope number_scope with num.
Infix "+" := Number.add : number_scope.
Infix "*" := Number.mul : number_scope.

(* ===================================================================== *)
(** ** The builtin [parseFloat] *)
(* ===================================================================== *)

Module Builtins.

(** The strings the script parses are computed-style values, which are
    serialised in ASCII; strings are taken over that range, whose white
    space and line terminators are TAB, LF, VT, FF, CR and SP. The
    white space outside it (U+00A0, U+FEFF, the space separators, U+2028
    and U+2029) has no counterpart here. *)
Definition is_white (c : ascii) : bool :=
  let n := Z.of_N (N_of_ascii c) in
  ((9 <=? n) && (n <=? 13)) || (n =? 32).

Fixpoint trim_start (s : string) : string :=
  match s with
  | String c s' => if is_white c then trim_start s' else s
  | EmptyString => s
  end.

Definition digit_of (c : ascii) : option Z :=
  let n := Z.of_N (N_of_ascii c) in
  if (48 <=? n) && (n <=? 57) then Some (n - 48) else None.

(** The longest prefix of decimal digits, and what follows it. *)
Fixpoint span_digits (s : string) : list Z * string :=
  match s with
  | String c s' =>
      match digit_of c with
      | Some d => let '(ds, r) := span_digits s' in (d :: ds, r)
      | None => ([], s)
      end
  | EmptyString => ([], s)
  end.

Definition decimal (ds : list Z) : Z :=
  fold_left (fun acc d => 10 * acc + d) ds 0.

Definition parse_sign (s : string) : bool * string :=
  match s with
  | String "-"%char r => (true, r)
  | String "+"%char r => (false, r)
  | _ => (false, s)
  end.

Fixpoint strip_prefix (p s : string) : option string :=
  match p, s with
  | EmptyString, _ => Some s
  | String a p', String b s' =>
      if Ascii.eqb a b then strip_prefix p' s' else None
  | String _ _, EmptyString => None
  end.

(** ExponentPart: [e] or [E], an optional sign, at least one digit. An
    [e] that no digit follows is not part of the literal. *)
Definition parse_exponent (s : string) : Z :=
  match s with
  | String c r =>
      if Ascii.eqb c "e"%char || Ascii.eqb c "E"%char then
        let '(neg, r') := parse_sign r in
        match fst (span_digits r') with
        | [] => 0
        | ds => if neg then - decimal ds else decimal ds
        end
      else 0
  | EmptyString => 0
  end.

(** The Number nearest [(-1)^neg * m * 10^e10], rounding to nearest,
    ties to even. For a negative [e10] the quotient is rounded once,
    with the division core of [SFdiv] on the integers themselves. *)
Definition scale10 (neg : bool) (m e10 : Z) : number :=
  match m with
  | Zpos p =>
      if 0 <=? e10 then
        binary_round prec emax neg (p * Z.to_pos (10 ^ e10)) 0
      else
        let '(q, e, l) :=
          SFdiv_core_binary prec emax (Zpos p) 0 (10 ^ (- e10)) 0 in
        binary_round_aux prec emax neg q e l
  | _ => S754_zero neg
  end.

(** [parseFloat(string)]: skip leading white space, take the longest
    prefix that is a StrDecimalLiteral, return NaN when there is none.
    Whatever follows the literal (a unit such as [px], the rest of a
    shorthand value) is ignored. *)
Definition parseFloat (input : string) : number :=
  let '(neg, s) := parse_sign (trim_start input) in
  match strip_prefix "Infinity" s with
  | Some _ => S754_infinity neg
  | None =>
      let '(ip, r1) := span_digits s in
      let '(fp, r2) :=
        match r1 with
        | String "."%char r => span_digits r
        | _ => ([], r1)
        end in
      match ip ++ fp with
      | [] => nan
      | ds => scale10 neg (decimal ds)
                      (parse_exponent r2 - Z.of_nat (List.length fp))
      end
  end.

End Builtins.

Import Builtins.

(* ===================================================================== *)
(** ** The document, as the script reads it *)
(* ===================================================================== *)

Module DOM.

(** The computed style of an element: the eight properties the script
    reads, as the strings [getComputedStyle] serialises them. *)
Record CSSStyleDeclaration := {
  marginTop : string;
  marginRight : string;
  marginBottom : string;
  marginLeft : string;
  borderTop : string;
  borderRight : string;
  borderBottom : string;
  borderLeft : string
}.

Record DOMRect := { x : number; y : number; width : number; height : number }.

(** The size a [ResizeObserver] compares: the content box. *)
Record Size := { inlineSize : number; blockSize : number }.

Record Element := {
  computedStyle : CSSStyleDeclaration;
  scrollWidth : number;
  offsetWidth : number;
  offsetHeight : number;
  boundingClientRect : DOMRect;
  contentBoxSize : Size
}.

(** [document.documentElement] and [document.body]: the two elements the
    script names. A loaded HTML document has both. *)
Record Document := { documentElement : Element; body : Element }.

(** A reference to one of them. *)
Inductive Node := DocumentElement | Body.

Definition element (d : Document) (n : Node) : Element :=
  match n with
  | DocumentElement => documentElement d
  | Body => body d
  end.

Definition Node_eqb (a b : Node) : bool :=
  match a, b with
  | DocumentElement, DocumentElement | Body, Body => true
  | _, _ => false
  end.

Definition Size_neqb (a b : Size) : bool :=
  neqb (inlineSize a) (inlineSize b) || neqb (blockSize a) (blockSize b).

End DOM.

Import DOM.

(* ===================================================================== *)
(** ** The world of a running script *)
(* ===================================================================== *)

(** The two function values the script creates: the handler it assigns to
    [onload], and the arrow function it passes to [new ResizeObserver]. *)
Inductive Closure := OnloadHandler | ObserverCallback.

(** One observation of a [ResizeObserver]: the observed element and the
    size last reported for it. Nothing has been reported when the
    observation starts, and the first rendering pass after that notifies
    the observer whatever the size of the box, 0 x 0 included. *)
Record ResizeObservation := {
  target : Node;
  lastReportedSize : option Size
}.

Record ResizeObserver := {
  callback : Closure;
  observationTargets : list ResizeObservation
}.

(** What an execution trace records: the two inbound signals as they are
    dispatched, and the outbound call. *)
Inductive TraceItem :=
| LoadSignal
| ResizeNotification (observer : nat) (entries : list Node)
| RpcAdjustWindowToContent (width height : number).

Record World := {
  document : Document;
  window_onload : option Closure;
  resizeObservers : list ResizeObserver;
  trace : list TraceItem
}.

Definition with_document (d : Document) (w : World) : World :=
  {| document := d; window_onload := window_onload w;
     resizeObservers := resizeObservers w; trace := trace w |}.

Definition with_onload (h : option Closure) (w : World) : World :=
  {| document := document w; window_onload := h;
     resizeObservers := resizeObservers w; trace := trace w |}.

Definition with_observers (obs : list ResizeObserver) (w : World) : World :=
  {| document := document w; window_onload := window_onload w;
     resizeObservers := obs; trace := trace w |}.

Definition with_trace (t : list TraceItem) (w : World) : World :=
  {| document := document w; window_onload := window_onload w;
     resizeObservers := resizeObservers w; trace := t |}.

(** Script code runs in the state monad over the world. *)
Definition JS : Type -> Type := state World.

Definition exec {A} (m : JS A) (w : World) : World := snd (runState m w).
Definition eval {A} (m : JS A) (w : World) : A := fst (runState m w).

Fixpoint for_each {A} (l : list A) (f : A -> JS unit) : JS unit :=
  match l with
  | [] => ret tt
  | a :: l' => f a ;; for_each l' f
  end.

(** *** Host and DOM operations *)

Module Host.

Definition log (i : TraceItem) : JS unit :=
  modify (fun w => with_trace (trace w ++ [i]) w) ;; ret tt.

(** The host operation: all the model knows of it is that it was called,
    and with which arguments. *)
Definition _rpc_adjustWindowToContent (width height : number) : JS unit :=
  log (RpcAdjustWindowToContent width height).

Definition getComputedStyle (n : Node) : JS CSSStyleDeclaration :=
  gets (fun w => computedStyle (element (document w) n)).

Definition get_scrollWidth (n : Node) : JS number :=
  gets (fun w => scrollWidth (element (document w) n)).

Definition get_offsetWidth (n : Node) : JS number :=
  gets (fun w => offsetWidth (element (document w) n)).

Definition get_offsetHeight (n : Node) : JS number :=
  gets (fun w => offsetHeight (element (document w) n)).

Definition getBoundingClientRect (n : Node) : JS DOMRect :=
  gets (fun w => boundingClientRect (element (document w) n)).

(** [onload = h] at the top level of a classic script. *)
Definition assign_onload (h : Closure) : JS unit :=
  modify (with_onload (Some h)) ;; ret tt.

(** [new ResizeObserver(cb)]: a new observer with no observation; the
    value is its position among the document's observers. *)
Definition new_ResizeObserver (cb : Closure) : JS nat :=
  w <- get ;;
  put (with_observers
         (resizeObservers w ++
          [{| callback := cb; observationTargets := [] |}]) w) ;;
  ret (List.length (resizeObservers w)).

Definition add_observation (n : Node) (ob : ResizeObserver) : ResizeObserver :=
  if existsb (fun o => Node_eqb (target o) n) (observationTargets ob)
  then ob
  else {| callback := callback ob;
          observationTargets :=
            observationTargets ob ++
            [{| target := n; lastReportedSize := None |}] |}.

Fixpoint update_nth {A} (i : nat) (f : A -> A) (l : list A) : list A :=
  match l, i with
  | [], _ => []
  | a :: l', O => f a :: l'
  | a :: l', S i' => a :: update_nth i' f l'
  end.

(** [observer.observe(n)]. *)
Definition observe (observer : nat) (n : Node) : JS unit :=
  modify (fun w =>
    with_observers
      (update_nth observer (add_observation n) (resizeObservers w)) w) ;;
  ret tt.

(** Array destructuring [const [a, b, c, d] = arr]: the element at each
    index. A missing element is [undefined], which is NaN under [+]. *)
Definition at_index (arr : list number) (i : nat) : number := nth i arr nan.

End Host.

Import Host.

(* ===================================================================== *)
(** ** The script, variant A *)
(* ===================================================================== *)

Module VariantA.

(** [function _adjust()]. [Array.prototype.map] passes each element, its
    index and the array to [parseFloat], which reads its first argument
    only. The top and bottom values are parsed and not used. *)
Definition _adjust : JS unit :=
  s <- getComputedStyle Body ;;
  let margins :=
    map parseFloat [marginTop s; marginRight s; marginBottom s; marginLeft s] in
  let '(mt, mr, mb, ml) :=
    (at_index margins 0, at_index margins 1,
     at_index margins 2, at_index margins 3) in
  let borders :=
    map parseFloat [borderTop s; borderRight s; borderBottom s; borderLeft s] in
  let '(bt, br, bb, bl) :=
    (at_index borders 0, at_index borders 1,
     at_index borders 2, at_index borders 3) in
  body_scrollWidth <- get_scrollWidth Body ;;
  let width := (ml + bl + body_scrollWidth + br + mr)%num in
  rect <- getBoundingClientRect DocumentElement ;;
  let height := DOM.height rect in
  _rpc_adjustWindowToContent width height.

(** [entries => _adjust()]. *)
Definition observer_callback (entries : list Node) : JS unit := _adjust.

(** The function assigned to [onload]. *)
Definition onload : JS unit :=
  resizeObserver <- new_ResizeObserver ObserverCallback ;;
  observe resizeObserver DocumentElement.

(** The top level of the script: the function declaration is hoisted,
    the one statement is the assignment to [onload]. *)
Definition toplevel : JS unit := assign_onload OnloadHandler.

End VariantA.

(* ===================================================================== *)
(** ** The script, variant B *)
(* ===================================================================== *)

Module VariantB.

Definition _adjust : JS unit :=
  width <- get_offsetWidth DocumentElement ;;
  height <- get_offsetHeight DocumentElement ;;
  _rpc_adjustWindowToContent (width * of_Z 2)%num (height * of_Z 2)%num.

Definition observer_callback (entries : list Node) : JS unit := _adjust.

Definition onload : JS unit :=
  resizeObserver <- new_ResizeObserver ObserverCallback ;;
  observe resizeObserver Body.

Definition toplevel : JS unit := assign_onload OnloadHandler.

End VariantB.

(* ===================================================================== *)
(** ** The event loop *)
(* ===================================================================== *)

Inductive Variant := A | B.

(** Calling a function value of the running script. *)
Definition call (v : Variant) (c : Closure) (entries : list Node) : JS unit :=
  match v, c with
  | A, OnloadHandler => VariantA.onload
  | A, ObserverCallback => VariantA.observer_callback entries
  | B, OnloadHandler => VariantB.onload
  | B, ObserverCallback => VariantB.observer_callback entries
  end.

Definition toplevel (v : Variant) : JS unit :=
  match v with
  | A => VariantA.toplevel
  | B => VariantB.toplevel
  end.

(** The environment's two signals: the load event, and a rendering pass
    that lays the document out as [d]. *)
Inductive Event := Load | Render (d : Document).

Module EventLoop.

(** An observation is active in a layout when nothing was reported for
    it yet, or when the content box differs from the size last reported. *)
Definition is_active (d : Document) (o : ResizeObservation) : bool :=
  match lastReportedSize o with
  | None => true
  | Some reported =>
      Size_neqb (contentBoxSize (element d (target o))) reported
  end.

Definition report (d : Document) (o : ResizeObservation) : ResizeObservation :=
  if is_active d o
  then {| target := target o;
          lastReportedSize := Some (contentBoxSize (element d (target o))) |}
  else o.

Definition mark_reported (d : Document) (ob : ResizeObserver) : ResizeObserver :=
  {| callback := callback ob;
     observationTargets := map (report d) (observationTargets ob) |}.

(** Gather the active observations: for each observer that has some, its
    position, its callback and the elements whose size changed. *)
Fixpoint gather (d : Document) (i : nat) (obs : list ResizeObserver)
  : list (nat * Closure * list Node) :=
  match obs with
  | [] => []
  | ob :: obs' =>
      match filter (is_active d) (observationTargets ob) with
      | [] => gather d (S i) obs'
      | active => (i, callback ob, map target active) :: gather d (S i) obs'
      end
  end.

(** One notification: the observer's callback is invoked once, with all
    of its entries. *)
Definition notify (v : Variant) (n : nat * Closure * list Node) : JS unit :=
  let '(i, cb, entries) := n in
  log (ResizeNotification i entries) ;; call v cb entries.

(** Broadcast the active observations: the sizes are recorded as
    reported, and each observer that has some is notified, in order. The
    callbacks of this script change neither the document nor the
    observers, so that one round settles the rendering pass. *)
Definition deliver (v : Variant) : JS unit :=
  w <- get ;;
  let d := document w in
  let notifications := gather d 0 (resizeObservers w) in
  put (with_observers (map (mark_reported d) (resizeObservers w)) w) ;;
  for_each notifications (notify v).

Definition dispatch (v : Variant) (e : Event) : JS unit :=
  match e with
  | Load =>
      log LoadSignal ;;
      w <- get ;;
      match window_onload w with
      | Some h => call v h []
      | None => ret tt
      end
  | Render d =>
      modify (with_document d) ;;
      deliver v
  end.

Definition run (v : Variant) (events : list Event) : JS unit :=
  for_each events (dispatch v).

(** Before the script runs nothing is installed. *)
Definition boot (d : Document) : World :=
  {| document := d; window_onload := None;
     resizeObservers := []; trace := [] |}.

(** The script is evaluated, then the environment's events arrive. *)
Definition execution (v : Variant) (d : Document) (events : list Event) : World :=
  exec (toplevel v ;; run v events) (boot d).

End EventLoop.

Import EventLoop.

(* ===================================================================== *)
(** ** Reading an execution trace *)
(* ===================================================================== *)

Module Trace.

Definition is_load (i : TraceItem) : bool :=
  match i with LoadSignal => true | _ => false end.

Definition is_notification (i : TraceItem) : bool :=
  match i with ResizeNotification _ _ => true | _ => false end.

Definition is_rpc (i : TraceItem) : bool :=
  match i with RpcAdjustWindowToContent _ _ => true | _ => false end.

Definition count (p : TraceItem -> bool) (t : list TraceItem) : nat :=
  List.length (filter p t).

(** The load signal has been dispatched. *)
Definition loaded (t : list TraceItem) : bool := existsb is_load t.

(** Some forwarding call precedes the first load signal. *)
Fixpoint rpc_before_load (t : list TraceItem) : bool :=
  match t with
  | [] => false
  | LoadSignal :: _ => false
  | RpcAdjustWindowToContent _ _ :: _ => true
  | ResizeNotification _ _ :: t' => rpc_before_load t'
  end.

(** Every notification is answered at once by exactly one forwarding
    call, and no forwarding call has another origin. [pending] says
    that a notification is waiting for its call: the reporter is
    measuring, not idle. *)
Fixpoint paired_from (pending : bool) (t : list TraceItem) : bool :=
  match t with
  | [] => negb pending
  | LoadSignal :: t' => negb pending && paired_from false t'
  | ResizeNotification _ _ :: t' => negb pending && paired_from true t'
  | RpcAdjustWindowToContent _ _ :: t' => pending && paired_from false t'
  end.

Definition paired (t : list TraceItem) : bool := paired_from false t.

(** The entries of every notification are exactly the element [n]. *)
Definition notifies_only (n : Node) (i : TraceItem) : Prop :=
  match i with
  | ResizeNotification _ entries => entries = [n]
  | _ => True
  end.

(** The forwarding calls of a trace, in order. *)
Fixpoint calls (t : list TraceItem) : list (number * number) :=
  match t with
  | [] => []
  | RpcAdjustWindowToContent wd ht :: t' => (wd, ht) :: calls t'
  | _ :: t' => calls t'
  end.

End Trace.

Import Trace.

(* ===================================================================== *)
(** ** The pair each variant forwards, and the element it observes *)
(* ===================================================================== *)

(** The arguments of the forwarding call, as an expression of the document
    read; [call_observer_callback] below shows that [_adjust] forwards
    exactly this pair. *)
Definition forwarded (v : Variant) (d : Document) : number * number :=
  match v with
  | A =>
      let s := computedStyle (body d) in
      ((parseFloat (marginLeft s) + parseFloat (borderLeft s)
        + scrollWidth (body d)
        + parseFloat (borderRight s) + parseFloat (marginRight s))%num,
       height (boundingClientRect (documentElement d)))
  | B =>
      ((offsetWidth (documentElement d) * of_Z 2)%num,
       (offsetHeight (documentElement d) * of_Z 2)%num)
  end.

Definition rpc_of (v : Variant) (d : Document) : TraceItem :=
  RpcAdjustWindowToContent (fst (forwarded v d)) (snd (forwarded v d)).

(** The argument of [observe] in each variant's [onload]. *)
Definition observed (v : Variant) : Node :=
  match v with
  | A => DocumentElement
  | B => Body
  end.

(** The observer as [onload] leaves it. *)
Definition installed_observer (n : Node) : ResizeObserver :=
  {| callback := ObserverCallback;
     observationTargets := [{| target := n; lastReportedSize := None |}] |}.

(* ===================================================================== *)
(** ** The vocabulary of the statements *)
(* ===================================================================== *)

(** A value that is not NaN and carries the sign [s]. *)
Definition signed (s : bool) (x : number) : Prop :=
  match x with
  | S754_zero s' | S754_infinity s' | S754_finite s' _ _ => s' = s
  | S754_nan => False
  end.

(** [m * 2^k] on mantissas, for [k] not below zero. *)
Definition shl (m : positive) (k : Z) : positive :=
  match k with
  | Zpos p => Pos.iter xO m p
  | _ => m
  end.

(** The Dimensions invariant on a forwarded pair: both components are
    numbers, not NaN, and not below zero. *)
Definition dimensions_ok (p : number * number) : bool :=
  nonneg (fst p) && nonneg (snd p).

(** What a computation appends to the trace. *)
Definition appended (m : JS unit) (w : World) : list TraceItem :=
  skipn (List.length (trace w)) (trace (exec m w)).

(** The trace of one broadcast: per notified observer, the notification
    and the call that answers it. *)
Definition broadcast_trace (v : Variant) (d : Document)
           (l : list (nat * Closure * list Node)) : list TraceItem :=
  flat_map (fun n => [ResizeNotification (fst (fst n)) (snd n); rpc_of v d]) l.

(** An observer of the running script: its callback is the arrow
    function, and it observes the one element [onload] registered. *)
Definition script_observer (v : Variant) (ob : ResizeObserver) : Prop :=
  callback ob = ObserverCallback /\
  map target (observationTargets ob) = [observed v].

(** What holds of the world throughout an execution of variant [v]. *)
Record invariant (v : Variant) (w : World) : Prop := {
  inv_onload : window_onload w = Some OnloadHandler;
  inv_observers : Forall (script_observer v) (resizeObservers w);
  inv_paired : paired (trace w) = true;
  inv_entries : Forall (notifies_only (observed v)) (trace w);
  inv_no_early_call : rpc_before_load (trace w) = false;
  inv_not_loaded : loaded (trace w) = false -> resizeObservers w = []
}.

(** What is gathered from script observers: their callback, and the
    observed element as the only entry. *)
Definition script_notification (v : Variant) (n : nat * Closure * list Node) : Prop :=
  snd (fst n) = ObserverCallback /\ snd n = [observed v].

(** An observer whose one observation is of the element [n]. *)
Definition observes_only (n : Node) (ob : ResizeObserver) : Prop :=
  map target (observationTargets ob) = [n].

(** The reading of a trace under which every inbound signal, the load
    signal included, is answered by one forwarding call. *)
Definition one_call_per_signal (t : list TraceItem) : Prop :=
  count is_rpc t = (count is_notification t + count is_load t)%nat.

(* ===================================================================== *)
(** ** Exact values *)
(* ===================================================================== *)

(** A mantissa and a binary exponent: [(m, e)] stands for [m * 2^e]. *)
Definition dyadic : Type := (Z * Z)%type.

(** The value of a Number that has one: zero or finite. *)
Definition exact_value (x : number) : option dyadic :=
  match x with
  | S754_zero _ => Some (0, 0)
  | S754_finite s m e => Some (cond_Zopp s (Zpos m), e)
  | S754_infinity _ | S754_nan => None
  end.

(** The mantissa of [a] at an exponent [e] not above its own. *)
Definition dyadic_align (a : dyadic) (e : Z) : Z := fst a * 2 ^ (snd a - e).

(** The sum of two values, with nothing rounded. *)
Definition dyadic_add (a b : dyadic) : dyadic :=
  let e := Z.min (snd a) (snd b) in
  (dyadic_align a e + dyadic_align b e, e).

Definition dyadic_eqb (a b : dyadic) : bool :=
  let e := Z.min (snd a) (snd b) in
  dyadic_align a e =? dyadic_align b e.

(** The sum of the values of [xs], with nothing rounded. *)
Fixpoint exact_sum (xs : list number) : option dyadic :=
  match xs with
  | [] => Some (0, 0)
  | x :: xs' =>
      match exact_value x, exact_sum xs' with
      | Some a, Some b => Some (dyadic_add a b)
      | _, _ => None
      end
  end.

(** The Number nearest a value, ties to even. *)
Definition nearest (a : dyadic) : number :=
  binary_normalize prec emax (fst a) (snd a) false.

(** [x] has a value, and it is the sum of the values of [xs]. *)
Definition is_exact_sum (x : number) (xs : list number) : bool :=
  match exact_value x, exact_sum xs with
  | Some a, Some b => dyadic_eqb a b
  | _, _ => false
  end.

(** The five values variant A adds, in the order it adds them. *)
Definition width_parts (d : Document) : list number :=
  let s := computedStyle (body d) in
  [parseFloat (marginLeft s); parseFloat (borderLeft s);
   scrollWidth (body d);
   parseFloat (borderRight s); parseFloat (marginRight s)].

(* ===================================================================== *)
(** ** Further vocabulary: style strings, doubling, rendering passes *)
(* ===================================================================== *)

(** The decimal digits [ds], most significant first, as a string. *)
Definition digit_char (d : Z) : ascii := ascii_of_N (Z.to_N (48 + d)).

Fixpoint digit_string (ds : list Z) : string :=
  match ds with
  | [] => EmptyString
  | d :: ds' => String (digit_char d) (digit_string ds')
  end.

(** What follows the digits of a length such as [8px] or of a shorthand
    such as [2px solid ...]: nothing, or text that begins with neither a
    digit, nor a point, nor an exponent mark. *)
Definition is_unit_suffix (s : string) : bool :=
  match s with
  | EmptyString => true
  | String c _ =>
      match digit_of c with
      | Some _ => false
      | None =>
          negb (Ascii.eqb c "."%char || Ascii.eqb c "e"%char
                || Ascii.eqb c "E"%char)
      end
  end.

(** A computed value that reads as the non-negative integer [n]: decimal
    digits of [n], then a unit suffix. *)
Definition pixel_value (n : Z) (s : string) : Prop :=
  exists ds suffix,
    s = (digit_string ds ++ suffix)%string
    /\ ds <> []
    /\ Forall (fun d => 0 <= d <= 9) ds
    /\ is_unit_suffix suffix = true
    /\ decimal ds = n.

(** A computed value with no number at its start: the empty string, or a
    keyword, which begins with a lowercase letter. *)
Definition is_keyword (s : string) : bool :=
  match s with
  | EmptyString => true
  | String c _ =>
      let n := Z.of_N (N_of_ascii c) in (97 <=? n) && (n <=? 122)
  end.

(** A normal binary64 number: a 53-bit mantissa at an exponent of the
    format. *)
Definition is_normal (x : number) : bool :=
  match x with
  | S754_finite _ m e =>
      (Zpos (digits2_pos m) =? prec) && (-1074 <=? e) && (e <=? emax - prec)
  | _ => false
  end.

(** The same mantissa one exponent up; past the last exponent, the
    infinity of the same sign. *)
Definition doubled (x : number) : number :=
  match x with
  | S754_finite s m e =>
      if e + 1 <=? emax - prec then S754_finite s m (e + 1)
      else S754_infinity s
  | _ => x
  end.

(** The content box of the element variant [v] observes, in the layout [d]. *)
Definition observed_box (v : Variant) (d : Document) : Size :=
  contentBoxSize (element d (observed v)).

Definition is_load_event (e : Event) : bool :=
  match e with Load => true | Render _ => false end.

Definition count_loads (events : list Event) : nat :=
  List.length (filter is_load_event events).

(* ===================================================================== *)
(** ** Sample documents *)
(* ===================================================================== *)

Module Samples.

Definition style (mt mr mb ml bt br bb bl : string) : CSSStyleDeclaration :=
  {| marginTop := mt; marginRight := mr; marginBottom := mb; marginLeft := ml;
     borderTop := bt; borderRight := br; borderBottom := bb; borderLeft := bl |}.

Definition no_border : string := "0px none rgb(0, 0, 0)".

Definition box (w h : Z) : Size :=
  {| inlineSize := of_Z w; blockSize := of_Z h |}.

Definition rect (x0 y0 w h : Z) : DOMRect :=
  {| x := of_Z x0; y := of_Z y0; width := of_Z w; height := of_Z h |}.

(** A 400 x 200 root element around a body with the default 8px margin. *)
Definition page : Document :=
  {| documentElement :=
       {| computedStyle :=
            style "0px" "0px" "0px" "0px" no_border no_border no_border no_border;
          scrollWidth := of_Z 400;
          offsetWidth := of_Z 400;
          offsetHeight := of_Z 200;
          boundingClientRect := rect 0 0 400 200;
          contentBoxSize := box 400 200 |};
     body :=
       {| computedStyle :=
            style "8px" "8px" "8px" "8px" no_border no_border no_border no_border;
          scrollWidth := of_Z 384;
          offsetWidth := of_Z 384;
          offsetHeight := of_Z 184;
          boundingClientRect := rect 8 8 384 184;
          contentBoxSize := box 384 184 |} |}.

(** A body 300px wide with a 2px border and 10px margins, in a
    400 x 200 root element. *)
Definition framed : Document :=
  let b := "2px solid rgb(0, 0, 0)"%string in
  {| documentElement :=
       {| computedStyle :=
            style "0px" "0px" "0px" "0px" no_border no_border no_border no_border;
          scrollWidth := of_Z 400;
          offsetWidth := of_Z 400;
          offsetHeight := of_Z 200;
          boundingClientRect := rect 0 0 400 200;
          contentBoxSize := box 400 200 |};
     body :=
       {| computedStyle := style "10px" "10px" "10px" "10px" b b b b;
          scrollWidth := of_Z 300;
          offsetWidth := of_Z 304;
          offsetHeight := of_Z 180;
          boundingClientRect := rect 10 10 304 180;
          contentBoxSize := box 300 176 |} |}.

Definition with_body_style (st : CSSStyleDeclaration) (d : Document) : Document :=
  {| documentElement := documentElement d;
     body :=
       {| computedStyle := st;
          scrollWidth := scrollWidth (body d);
          offsetWidth := offsetWidth (body d);
          offsetHeight := offsetHeight (body d);
          boundingClientRect := boundingClientRect (body d);
          contentBoxSize := contentBoxSize (body d) |} |}.

(** [page] in an engine that serialises the border shorthands of a
    computed style as the empty string. *)
Definition page_without_shorthands : Document :=
  with_body_style (style "8px" "8px" "8px" "8px" "" "" "" "") page.

(** [page] with a top margin whose computed value is the keyword. *)
Definition page_with_auto_top : Document :=
  with_body_style
    (style "auto" "8px" "8px" "8px" no_border no_border no_border no_border)
    page.

(** [page] after the root element grew to 300px in height while the
    body kept its box. *)
Definition page_root_grown : Document :=
  {| documentElement :=
       {| computedStyle := computedStyle (documentElement page);
          scrollWidth := of_Z 400;
          offsetWidth := of_Z 400;
          offsetHeight := of_Z 300;
          boundingClientRect := rect 0 0 400 300;
          contentBoxSize := box 400 300 |};
     body := body page |}.

(** [page] with left and right margins of a tenth of a pixel around a
    body 300px wide. *)
Definition page_fractional : Document :=
  {| documentElement := documentElement page;
     body :=
       {| computedStyle :=
            style "8px" "0.1px" "8px" "0.1px"
                  no_border no_border no_border no_border;
          scrollWidth := of_Z 300;
          offsetWidth := of_Z 300;
          offsetHeight := of_Z 184;
          boundingClientRect := rect 0 8 300 184;
          contentBoxSize := box 300 184 |} |}.

(** A document whose root element has an empty content box. *)
Definition page_collapsed : Document :=
  {| documentElement :=
       {| computedStyle := computedStyle (documentElement page);
          scrollWidth := of_Z 0;
          offsetWidth := of_Z 0;
          offsetHeight := of_Z 0;
          boundingClientRect := rect 0 0 0 0;
          contentBoxSize := box 0 0 |};
     body :=
       {| computedStyle := computedStyle (body page);
          scrollWidth := of_Z 0;
          offsetWidth := of_Z 0;
          offsetHeight := of_Z 0;
          boundingClientRect := rect 0 0 0 0;
          contentBoxSize := box 0 0 |} |}.

End Samples.

(* ===================================================================== *)
(** ** Facts about numbers *)
(* ===================================================================== *)

Section NumberFacts.

Lemma add_nan_l (x : number) : (nan + x)%num = nan.
Proof. reflexivity. Qed.

Lemma add_nan_r (x : number) : (x + nan)%num = nan.
Proof. destruct x; reflexivity. Qed.

Lemma isNaN_true (x : number) : isNaN x = true -> x = nan.
Proof. destruct x; simpl; intros H; try discriminate H; reflexivity. Qed.

Lemma mul_comm (x y : number) : (x * y)%num = (y * x)%num.
Proof.
  destruct x as [sx|sx| |sx mx ex], y as [sy|sy| |sy my ey];
    unfold mul, SFmul;
    rewrite ?(xorb_comm sx sy), ?(Pos.mul_comm mx my), ?(Z.add_comm ex ey);
    reflexivity.
Qed.

(** Shifting a non-negative mantissa keeps it non-negative. *)
Lemma iter_pos_preserves {T} (P : T -> Prop) (f : T -> T) :
  (forall t, P t -> P (f t)) ->
  forall (p : positive) (t : T), P t -> P (iter_pos f p t).
Proof.
  intros Hf p; induction p as [p IH | p IH | ]; intros t Ht; simpl; auto.
Qed.

Lemma shr_1_nonneg (mrs : shr_record) : 0 <= shr_m mrs -> 0 <= shr_m (shr_1 mrs).
Proof.
  destruct mrs as [m r s0]; simpl.
  destruct m as [ | [q | q | ] | q ]; simpl; lia.
Qed.

Lemma shr_nonneg (mrs : shr_record) (e n : Z) :
  0 <= shr_m mrs -> 0 <= shr_m (fst (shr mrs e n)).
Proof.
  intros H; destruct n as [ | p | p ]; simpl; auto.
  apply iter_pos_preserves; auto using shr_1_nonneg.
Qed.

Lemma shr_fexp_nonneg (m e : Z) (l : location) :
  0 <= m -> 0 <= shr_m (fst (shr_fexp prec emax m e l)).
Proof.
  intros H; unfold shr_fexp; apply shr_nonneg.
  destruct l as [ | [ | | ] ]; simpl; exact H.
Qed.

Lemma round_nearest_even_nonneg (m : Z) (l : location) :
  0 <= m -> 0 <= round_nearest_even m l.
Proof.
  intros H; destruct l as [ | [ | | ] ]; simpl; try lia.
  destruct (Z.even m); lia.
Qed.

(** Rounding a non-negative mantissa yields a value of the given sign:
    never NaN. *)
Lemma binary_round_aux_signed (sx : bool) (mx ex : Z) (lx : location) :
  0 <= mx -> signed sx (binary_round_aux prec emax sx mx ex lx).
Proof.
  intros H; unfold binary_round_aux.
  pose proof (shr_fexp_nonneg ex lx H) as H1.
  destruct (shr_fexp prec emax mx ex lx) as [mrs' e']; simpl in H1.
  pose proof (round_nearest_even_nonneg (loc_of_shr_record mrs') H1) as H2.
  pose proof (shr_fexp_nonneg e' loc_Exact H2) as H3.
  destruct (shr_fexp prec emax _ e' loc_Exact) as [mrs'' e'']; simpl in H3.
  destruct (shr_m mrs'') as [ | q | q ]; simpl; try reflexivity; try lia.
  destruct (e'' <=? _); simpl; reflexivity.
Qed.

Lemma binary_round_signed (sx : bool) (mx : positive) (ex : Z) :
  signed sx (binary_round prec emax sx mx ex).
Proof.
  unfold binary_round.
  destruct (shl_align mx ex _) as [mz ez].
  apply binary_round_aux_signed; lia.
Qed.

Lemma nonneg_cases (x : number) :
  nonneg x = true ->
  (exists s, x = S754_zero s) \/ signed false x.
Proof.
  destruct x as [s|[|]| |[|] m e]; simpl; intros H;
    try discriminate H; eauto.
Qed.

Lemma signed_false_nonneg (x : number) : signed false x -> nonneg x = true.
Proof.
  destruct x as [s|s| |s m e]; simpl; intros H; subst; try reflexivity.
  contradiction.
Qed.

(** The sum of two non-negative numbers is a non-negative number. *)
Lemma add_nonneg (x y : number) :
  nonneg x = true -> nonneg y = true -> nonneg (x + y)%num = true.
Proof.
  intros Hx Hy.
  destruct x as [[|]|[|]| |[|] m e]; try discriminate Hx;
    destruct y as [[|]|[|]| |[|] m' e']; try discriminate Hy;
    try reflexivity.
  apply signed_false_nonneg.
  unfold add, SFadd, binary_normalize; simpl cond_Zopp.
  simpl Z.add.
      apply binary_round_signed.
Qed.

(** Twice a non-negative number is a non-negative number. *)
Lemma mul_two_nonneg (x : number) :
  nonneg x = true -> nonneg (x * of_Z 2)%num = true.
Proof.
  intros Hx.
  destruct (nonneg_cases x Hx) as [[sx ->] | Sx].
  - destruct sx; reflexivity.
  - destruct x as [s|s| |s m e]; simpl in Sx; subst; try contradiction;
      try reflexivity.
    apply signed_false_nonneg.
    change (of_Z 2) with (S754_finite false 4503599627370496 (-51)).
    unfold mul, SFmul.
    apply binary_round_aux_signed; lia.
Qed.

End NumberFacts.

(* ===================================================================== *)
(** ** Integers are summed and doubled exactly *)
(* ===================================================================== *)

Section NumberExact.

Unset Implicit Arguments.

Lemma iter_xO_value (m p : positive) :
  Zpos (Pos.iter xO m p) = Zpos m * 2 ^ Zpos p.
Proof.
  induction p as [ | p IH ] using Pos.peano_ind.
  - simpl. lia.
  - rewrite Pos.iter_succ, Pos2Z.inj_succ, Z.pow_succ_r by lia.
    rewrite Pos2Z.inj_xO, IH. ring.
Qed.

Lemma shl_value (m : positive) (k : Z) :
  0 <= k -> Zpos (shl m k) = Zpos m * 2 ^ k.
Proof.
  destruct k as [ | p | p ]; simpl; intros H; try lia.
  apply iter_xO_value.
Qed.

Lemma shl_shl (m : positive) (i j : Z) :
  0 <= i -> 0 <= j -> shl (shl m i) j = shl m (i + j).
Proof.
  intros Hi Hj. apply Pos2Z.inj.
  rewrite !shl_value by lia. rewrite Z.pow_add_r by lia. ring.
Qed.

Lemma shl_add (a b : positive) (k : Z) :
  0 <= k -> (shl a k + shl b k)%positive = shl (a + b) k.
Proof.
  intros Hk. apply Pos2Z.inj.
  rewrite Pos2Z.inj_add, !shl_value by lia. rewrite Pos2Z.inj_add. ring.
Qed.

Lemma digits_iter_xO (m p : positive) :
  digits2_pos (Pos.iter xO m p) = (digits2_pos m + p)%positive.
Proof.
  induction p as [ | p IH ] using Pos.peano_ind.
  - simpl. lia.
  - rewrite Pos.iter_succ. simpl. rewrite IH. lia.
Qed.

Lemma digits_shl (m : positive) (k : Z) :
  0 <= k -> Zpos (digits2_pos (shl m k)) = Zpos (digits2_pos m) + k.
Proof.
  destruct k as [ | p | p ]; simpl; intros H; try lia.
  rewrite digits_iter_xO. lia.
Qed.

Lemma digits_size (m : positive) : digits2_pos m = Pos.size m.
Proof. induction m as [ m IH | m IH | ]; simpl; rewrite ?IH; reflexivity. Qed.

(** [2^(d-1) <= m < 2^d] for [d] the number of digits of [m]. *)
Lemma digits_bounds (m : positive) :
  2 ^ (Zpos (digits2_pos m) - 1) <= Zpos m < 2 ^ Zpos (digits2_pos m).
Proof.
  rewrite digits_size.
  pose proof (Pos.size_gt m) as Hgt.
  pose proof (Pos.size_le m) as Hle.
  split.
  - apply Pos2Z.pos_le_pos in Hle.
    rewrite Pos2Z.inj_pow in Hle.
    replace (Zpos (Pos.size m)) with (Z.succ (Zpos (Pos.size m) - 1)) in Hle by lia.
    rewrite Z.pow_succ_r in Hle by lia. lia.
  - apply Pos2Z.pos_lt_pos in Hgt. rewrite Pos2Z.inj_pow in Hgt. exact Hgt.
Qed.

Lemma digits_le (m : positive) (d : Z) :
  Zpos m < 2 ^ d -> Zpos (digits2_pos m) <= d.
Proof.
  intros H. pose proof (digits_bounds m) as [Hlo _].
  destruct (Z.le_gt_cases (Zpos (digits2_pos m)) d) as [ | Hgt]; [assumption | ].
  assert (2 ^ d <= 2 ^ (Zpos (digits2_pos m) - 1))
    by (apply Z.pow_le_mono_r; lia).
  lia.
Qed.

Lemma digits_mono (a b : positive) :
  (a <= b)%positive -> Zpos (digits2_pos a) <= Zpos (digits2_pos b).
Proof.
  intros H. apply digits_le.
  pose proof (digits_bounds b) as [_ Hb]. lia.
Qed.

Lemma iter_shr_1_exact (p : positive) :
  forall M : positive,
    iter_pos shr_1 p
      {| shr_m := Zpos (Pos.iter xO M p); shr_r := false; shr_s := false |}
    = {| shr_m := Zpos M; shr_r := false; shr_s := false |}.
Proof.
  induction p as [ p IH | p IH | ]; intros M; simpl.
  - rewrite IH, IH. reflexivity.
  - rewrite IH, IH. reflexivity.
  - reflexivity.
Qed.

(** A mantissa with [k] trailing zero bits whose value sits at the
    exponent of its format rounds to itself. *)
Lemma binary_round_aux_exact (s : bool) (M : positive) (k e : Z) :
  0 <= k ->
  fexp prec emax (Zpos (digits2_pos M) + k + e) = e + k ->
  e + k <= emax - prec ->
  binary_round_aux prec emax s (Zpos (shl M k)) e loc_Exact
  = S754_finite s M (e + k).
Proof.
  intros Hk Hfexp Hmax.
  unfold binary_round_aux.
  assert (H1 : shr_fexp prec emax (Zpos (shl M k)) e loc_Exact =
               ({| shr_m := Zpos M; shr_r := false; shr_s := false |}, e + k)).
  { unfold shr_fexp. simpl Zdigits2. rewrite digits_shl by exact Hk.
    rewrite Hfexp. replace (e + k - e) with k by lia.
    destruct k as [ | p | p ]; simpl; try lia.
    - rewrite Z.add_0_r. reflexivity.
    - rewrite iter_shr_1_exact. reflexivity. }
  rewrite H1. simpl shr_m. simpl loc_of_shr_record. simpl round_nearest_even.
  assert (H2 : shr_fexp prec emax (Zpos M) (e + k) loc_Exact =
               ({| shr_m := Zpos M; shr_r := false; shr_s := false |}, e + k)).
  { unfold shr_fexp. simpl Zdigits2.
    replace (Zpos (digits2_pos M) + (e + k)) with (Zpos (digits2_pos M) + k + e) by lia.
    rewrite Hfexp, Z.sub_diag. reflexivity. }
  rewrite H2. simpl shr_m.
  apply Z.leb_le in Hmax. rewrite Hmax. reflexivity.
Qed.

Lemma binary_round_exact (s : bool) (M : positive) (k e : Z) :
  0 <= k ->
  fexp prec emax (Zpos (digits2_pos M) + k + e) = e + k ->
  e + k <= emax - prec ->
  binary_round prec emax s (shl M k) e = S754_finite s M (e + k).
Proof.
  intros Hk Hfexp Hmax.
  unfold binary_round.
  rewrite digits_shl by exact Hk. rewrite Hfexp.
  unfold shl_align. replace (e + k - e) with k by lia.
  destruct k as [ | p | p ]; try lia;
    apply binary_round_aux_exact; assumption.
Qed.

(** The Number of a positive integer below [2^53]: the integer itself,
    shifted to a 53-bit mantissa. *)
Lemma of_Z_pos (p : positive) :
  Zpos p < 2 ^ 53 ->
  let d := Zpos (digits2_pos p) in
  of_Z (Zpos p) = S754_finite false (shl p (53 - d)) (d - 53).
Proof.
  intros H d.
  pose proof (digits_le p 53 H) as Hd. fold d in Hd.
  assert (0 < d) by (unfold d; lia).
  unfold of_Z, binary_normalize, binary_round.
  fold d. rewrite Z.add_0_r.
  assert (Hf : fexp prec emax d = d - 53) by (unfold fexp, emin, prec, emax; lia).
  rewrite Hf. unfold shl_align.
  replace (d - 53 - 0) with (d - 53) by lia.
  destruct (Z.eq_dec d 53) as [E | NE].
  - rewrite E. simpl Z.sub. simpl shl.
    apply (binary_round_aux_exact false p 0 0); try lia.
    + fold d. rewrite E. reflexivity.
    + unfold emax, prec; lia.
  - destruct (d - 53) as [ | q | q ] eqn:Eq; try lia.
    replace (53 - d) with (Zpos q) by lia. simpl shl.
    replace (Zneg q) with (Zneg q + 0) by lia.
    apply (binary_round_aux_exact false (Pos.iter xO p q) 0 (Zneg q)); try lia.
    + rewrite digits_iter_xO. fold d.
      unfold fexp, emin, prec, emax; lia.
    + unfold emax, prec; lia.
Qed.

Lemma shl_align_fst (m : positive) (e e' : Z) :
  e' <= e -> fst (shl_align m e e') = shl m (e - e').
Proof.
  intros H. unfold shl_align.
  destruct (e' - e) as [ | q | q ] eqn:E; try lia.
  - replace (e - e') with 0 by lia. reflexivity.
  - replace (e - e') with (Zpos q) by lia. reflexivity.
Qed.

(** On non-negative integers whose sum is below [2^53], [+] on Numbers is
    the sum of the integers. *)
Lemma add_of_Z (a b : Z) :
  0 <= a -> 0 <= b -> a + b < 2 ^ 53 ->
  (of_Z a + of_Z b)%num = of_Z (a + b).
Proof.
  intros Ha Hb Hab.
  destruct a as [ | a | a ]; try lia;
    destruct b as [ | b | b ]; try lia; try reflexivity.
  - simpl Z.add. rewrite of_Z_pos by lia. reflexivity.
  - rewrite Z.add_0_r. rewrite of_Z_pos by lia. reflexivity.
  - rewrite <- Pos2Z.inj_add in *.
    rewrite (of_Z_pos a), (of_Z_pos b), (of_Z_pos (a + b)) by lia.
    cbv zeta.
    pose proof (digits_le a 53 ltac:(lia)) as Hda.
    pose proof (digits_le b 53 ltac:(lia)) as Hdb.
    pose proof (digits_le (a + b) 53 Hab) as Hdab.
    pose proof (digits_mono a (a + b) ltac:(lia)) as Hma.
    pose proof (digits_mono b (a + b) ltac:(lia)) as Hmb.
    set (da := Zpos (digits2_pos a)) in *.
    set (db := Zpos (digits2_pos b)) in *.
    set (dab := Zpos (digits2_pos (a + b))) in *.
    assert (0 < da) by (unfold da; lia).
    assert (0 < db) by (unfold db; lia).
    unfold add, SFadd.
    set (ez := Z.min (da - 53) (db - 53)).
    assert (Hez : ez <= da - 53 /\ ez <= db - 53 /\ ez <= dab - 53)
      by (unfold ez; lia).
    rewrite !shl_align_fst by lia.
    unfold cond_Zopp.
    rewrite !shl_shl by lia.
    replace (53 - da + (da - 53 - ez)) with (- ez) by lia.
    replace (53 - db + (db - 53 - ez)) with (- ez) by lia.
    rewrite <- Pos2Z.inj_add, shl_add by lia.
    unfold binary_normalize.
    replace (- ez) with (53 - dab + (dab - 53 - ez)) by lia.
    rewrite <- shl_shl by lia.
    rewrite binary_round_exact.
    + f_equal; lia.
    + lia.
    + rewrite digits_shl by lia. fold dab.
      unfold fexp, emin, prec, emax. lia.
    + unfold emax, prec. lia.
Qed.

(** Doubling a non-negative integer below [2^52] is exact. *)
Lemma mul_two_of_Z (n : Z) :
  0 <= n -> 2 * n < 2 ^ 53 ->
  (of_Z n * of_Z 2)%num = of_Z (2 * n).
Proof.
  intros Hn H2n.
  destruct n as [ | p | p ]; try lia; [reflexivity | ].
  change (2 * Zpos p) with (Zpos p~0) in *.
  rewrite (of_Z_pos p), (of_Z_pos p~0) by lia. cbv zeta.
  pose proof (digits_le p~0 53 H2n) as Hd. simpl digits2_pos in *.
  rewrite Pos2Z.inj_succ in *.
  set (d := Zpos (digits2_pos p)) in *.
  assert (0 < d) by (unfold d; lia).
  change (of_Z 2) with (S754_finite false 4503599627370496 (-51)).
  unfold mul, SFmul. simpl xorb.
  replace (shl p (53 - d) * 4503599627370496)%positive
    with (shl (shl p (53 - d)) 52)
    by (apply Pos2Z.inj; rewrite Pos2Z.inj_mul, !shl_value by lia; reflexivity).
  rewrite binary_round_aux_exact.
  - change (p~0)%positive with (shl p 1).
    rewrite shl_shl by lia. f_equal; [f_equal | ]; lia.
  - lia.
  - rewrite digits_shl by lia. fold d.
    unfold fexp, emin, prec, emax. lia.
  - unfold emax, prec. lia.
Qed.

(** Five non-negative integers whose sum is below [2^53], added from left
    to right. *)
Lemma add_of_Z_5 (a b c e f : Z) :
  0 <= a -> 0 <= b -> 0 <= c -> 0 <= e -> 0 <= f ->
  a + b + c + e + f < 2 ^ 53 ->
  (of_Z a + of_Z b + of_Z c + of_Z e + of_Z f)%num = of_Z (a + b + c + e + f).
Proof.
  intros Ha Hb Hc He Hf H.
  rewrite !add_of_Z by lia. reflexivity.
Qed.

End NumberExact.

Set Implicit Arguments.

(* ===================================================================== *)
(** ** What one call of [_adjust] does *)
(* ===================================================================== *)

Section Adjust.

Variable w : World.

Lemma adjust_A_exec :
  let s := computedStyle (body (document w)) in
  exec VariantA._adjust w =
  with_trace
    (trace w ++
     [RpcAdjustWindowToContent
        (parseFloat (marginLeft s) + parseFloat (borderLeft s)
         + scrollWidth (body (document w))
         + parseFloat (borderRight s) + parseFloat (marginRight s))%num
        (height (boundingClientRect (documentElement (document w))))])
    w.
Proof. reflexivity. Qed.

Lemma adjust_B_exec :
  exec VariantB._adjust w =
  with_trace
    (trace w ++
     [RpcAdjustWindowToContent
        (offsetWidth (documentElement (document w)) * of_Z 2)%num
        (offsetHeight (documentElement (document w)) * of_Z 2)%num])
    w.
Proof. reflexivity. Qed.

End Adjust.

Section TraceFacts.

Lemma paired_from_app (t1 t2 : list TraceItem) :
  forall b, paired_from b t1 = true ->
            paired_from b (t1 ++ t2) = paired_from false t2.
Proof.
  induction t1 as [ | i t1 IH ]; intros b H; simpl in *.
  - destruct b; [discriminate H | reflexivity].
  - destruct i; apply andb_prop in H; destruct H as [Hb H];
      rewrite Hb; simpl; apply IH; exact H.
Qed.

Lemma paired_app (t1 t2 : list TraceItem) :
  paired t1 = true -> paired (t1 ++ t2) = paired t2.
Proof. apply paired_from_app. Qed.

Lemma paired_from_counts (t : list TraceItem) :
  forall b, paired_from b t = true ->
            count is_rpc t =
            (count is_notification t + (if b then 1 else 0))%nat.
Proof.
  unfold count.
  induction t as [ | i t IH ]; intros b H; simpl in *.
  - destruct b; [discriminate H | reflexivity].
  - destruct i; apply andb_prop in H; destruct H as [Hb H]; simpl;
      rewrite (IH _ H); destruct b; try discriminate Hb; lia.
Qed.

Lemma rpc_before_load_app (t1 t2 : list TraceItem) :
  rpc_before_load (t1 ++ t2) =
  if loaded t1 then rpc_before_load t1
  else rpc_before_load t1 || rpc_before_load t2.
Proof.
  induction t1 as [ | i t1 IH ]; simpl; [reflexivity | ].
  destruct i; simpl;
    [ reflexivity | exact IH | destruct (loaded t1); reflexivity ].
Qed.

Lemma loaded_app (t1 t2 : list TraceItem) :
  loaded (t1 ++ t2) = loaded t1 || loaded t2.
Proof. unfold loaded; apply existsb_app. Qed.

End TraceFacts.

(* ===================================================================== *)
(** ** Running script code *)
(* ===================================================================== *)

Section Running.

Lemma exec_bind {X Y} (m : JS X) (f : X -> JS Y) (w : World) :
  exec (bind m f) w = exec (f (eval m w)) (exec m w).
Proof.
  unfold exec, eval; simpl.
  destruct (runState m w); reflexivity.
Qed.

Lemma exec_for_each_cons {X} (x : X) (l : list X) (f : X -> JS unit) (w : World) :
  exec (for_each (x :: l) f) w = exec (for_each l f) (exec (f x) w).
Proof. unfold exec; simpl; destruct (runState (f x) w); reflexivity. Qed.

Lemma update_nth_length {X} (f : X -> X) (l : list X) (x : X) :
  update_nth (List.length l) f (l ++ [x]) = l ++ [f x].
Proof.
  induction l as [ | a l IH ]; simpl; [reflexivity | ].
  rewrite IH; reflexivity.
Qed.

End Running.

Section Steps.

Variable v : Variant.

Lemma call_observer_callback (entries : list Node) (w : World) :
  exec (call v ObserverCallback entries) w =
  with_trace (trace w ++ [rpc_of v (document w)]) w.
Proof. destruct v; reflexivity. Qed.

Lemma call_onload (entries : list Node) (w : World) :
  exec (call v OnloadHandler entries) w =
  with_observers (resizeObservers w ++ [installed_observer (observed v)]) w.
Proof.
  destruct v; unfold exec; simpl; rewrite update_nth_length; reflexivity.
Qed.

Lemma dispatch_load (w : World) :
  window_onload w = Some OnloadHandler ->
  exec (dispatch v Load) w =
  with_observers (resizeObservers w ++ [installed_observer (observed v)])
                 (with_trace (trace w ++ [LoadSignal]) w).
Proof.
  intros H.
  unfold dispatch. rewrite exec_bind, exec_bind.
  set (w1 := exec (log LoadSignal) w).
  change (eval get w1) with w1.
  change (exec get w1) with w1.
  change (window_onload w1) with (window_onload w); rewrite H.
  rewrite call_onload; reflexivity.
Qed.

Lemma exec_notify (i : nat) (entries : list Node) (w : World) :
  exec (notify v (i, ObserverCallback, entries)) w =
  with_trace (trace w ++ [ResizeNotification i entries; rpc_of v (document w)]) w.
Proof.
  unfold notify. rewrite exec_bind, call_observer_callback.
  unfold exec; simpl. unfold with_trace; simpl.
  rewrite <- app_assoc; reflexivity.
Qed.

Lemma exec_broadcast (l : list (nat * Closure * list Node)) :
  Forall (fun n => snd (fst n) = ObserverCallback) l ->
  forall w, exec (for_each l (notify v)) w =
            with_trace (trace w ++ broadcast_trace v (document w) l) w.
Proof.
  induction 1 as [ | [[i cb] entries] l Hcb _ IH ]; intros w.
  - simpl. rewrite app_nil_r. destruct w; reflexivity.
  - simpl in Hcb; subst cb.
    rewrite exec_for_each_cons, exec_notify, IH.
    unfold with_trace; simpl. rewrite <- app_assoc. reflexivity.
Qed.

Lemma dispatch_render (d : Document) (w : World) :
  Forall (fun n => snd (fst n) = ObserverCallback)
         (gather d 0 (resizeObservers w)) ->
  exec (dispatch v (Render d)) w =
  {| document := d;
     window_onload := window_onload w;
     resizeObservers := map (mark_reported d) (resizeObservers w);
     trace := trace w ++ broadcast_trace v d (gather d 0 (resizeObservers w)) |}.
Proof.
  intros H.
  change (exec (dispatch v (Render d)) w)
    with (exec (for_each (gather d 0 (resizeObservers w)) (notify v))
               (with_observers (map (mark_reported d) (resizeObservers w))
                               (with_document d w))).
  rewrite (exec_broadcast H); reflexivity.
Qed.

End Steps.

(* ===================================================================== *)
(** ** Invariants of an execution *)
(* ===================================================================== *)

Section Invariant.

Variable v : Variant.

Lemma report_target (d : Document) (o : ResizeObservation) :
  target (report d o) = target o.
Proof. unfold report; destruct (is_active d o); reflexivity. Qed.

Lemma mark_reported_script_observer (d : Document) (ob : ResizeObserver) :
  script_observer v ob -> script_observer v (mark_reported d ob).
Proof.
  intros [Hc Ht]; split; [exact Hc | ].
  simpl. rewrite map_map.
  rewrite (map_ext _ target (report_target d)). exact Ht.
Qed.

Lemma gather_script_observers (d : Document) (obs : list ResizeObserver) :
  Forall (script_observer v) obs ->
  forall i, Forall (script_notification v) (gather d i obs).
Proof.
  induction 1 as [ | ob obs [Hc Ht] _ IH ]; intros i; simpl; [constructor | ].
  destruct (observationTargets ob) as [ | o [ | o' l ] ]; try discriminate Ht.
  simpl in *. injection Ht as Ht.
  destruct (is_active d o); simpl; [ | apply IH ].
  constructor; [ | apply IH ].
  split; simpl; [exact Hc | rewrite Ht; reflexivity].
Qed.

Lemma broadcast_trace_paired (d : Document) (l : list (nat * Closure * list Node)) :
  paired (broadcast_trace v d l) = true.
Proof. induction l as [ | n l IH ]; simpl; [reflexivity | exact IH]. Qed.

Lemma broadcast_trace_not_loaded (d : Document) (l : list (nat * Closure * list Node)) :
  loaded (broadcast_trace v d l) = false.
Proof. induction l as [ | n l IH ]; simpl; [reflexivity | exact IH]. Qed.

Lemma broadcast_trace_entries (d : Document) (l : list (nat * Closure * list Node)) :
  Forall (script_notification v) l ->
  Forall (notifies_only (observed v)) (broadcast_trace v d l).
Proof.
  induction 1 as [ | n l [_ He] _ IH ]; simpl; [constructor | ].
  constructor; [exact He | ]. constructor; [exact I | exact IH].
Qed.

Lemma invariant_toplevel (d : Document) :
  invariant v (exec (toplevel v) (boot d)).
Proof.
  destruct v; split; simpl; auto; try reflexivity.
Qed.

Lemma invariant_dispatch (e : Event) (w : World) :
  invariant v w -> invariant v (exec (dispatch v e) w).
Proof.
  intros [Hon Hobs Hp He Hr Hl].
  destruct e as [ | d ].
  - rewrite (dispatch_load v w Hon).
    split; simpl.
    + exact Hon.
    + apply Forall_app; split; [exact Hobs | ].
      constructor; [split; reflexivity | constructor].
    + rewrite (paired_app _ _ Hp); reflexivity.
    + apply Forall_app; split; [exact He | ].
      constructor; [exact I | constructor].
    + rewrite rpc_before_load_app, Hr.
      destruct (loaded (trace w)); reflexivity.
    + rewrite loaded_app; simpl.
      rewrite orb_true_r; discriminate.
  - pose proof (gather_script_observers d Hobs 0) as Hg.
    rewrite dispatch_render
      by (eapply Forall_impl; [ | exact Hg ]; intros n [Hc _]; exact Hc).
    split; simpl.
    + exact Hon.
    + clear - Hobs.
      induction Hobs as [ | ob obs Hob _ IH ]; simpl; constructor;
        auto using mark_reported_script_observer.
    + rewrite (paired_app _ _ Hp). apply broadcast_trace_paired.
    + apply Forall_app; split; [exact He | ].
      apply broadcast_trace_entries; exact Hg.
    + rewrite rpc_before_load_app, Hr.
      destruct (loaded (trace w)) eqn:Hld; [reflexivity | ].
      rewrite (Hl eq_refl); reflexivity.
    + rewrite loaded_app, broadcast_trace_not_loaded, orb_false_r.
      intros Hld; rewrite (Hl Hld); reflexivity.
Qed.

Lemma invariant_run (events : list Event) :
  forall w, invariant v w -> invariant v (exec (run v events) w).
Proof.
  unfold run.
  induction events as [ | e events IH ]; intros w Hw; [exact Hw | ].
  rewrite exec_for_each_cons.
  apply IH, invariant_dispatch, Hw.
Qed.

Lemma execution_unfold (d : Document) (events : list Event) :
  execution v d events = exec (run v events) (exec (toplevel v) (boot d)).
Proof. unfold execution; rewrite exec_bind; reflexivity. Qed.

Lemma invariant_execution (d : Document) (events : list Event) :
  invariant v (execution v d events).
Proof.
  rewrite execution_unfold.
  apply invariant_run, invariant_toplevel.
Qed.

End Invariant.

(* ===================================================================== *)
(** ** The measurement of each variant *)
(* ===================================================================== *)

Section Measurement.

Local Open Scope number_scope.

Lemma skipn_length_app {X} (l1 l2 : list X) :
  skipn (List.length l1) (l1 ++ l2) = l2.
Proof. induction l1 as [ | a l1 IH ]; simpl; auto. Qed.

Lemma appended_adjust_A (w : World) :
  appended VariantA._adjust w = [rpc_of A (document w)].
Proof.
  unfold appended; rewrite adjust_A_exec; simpl trace.
  apply skipn_length_app.
Qed.

Lemma appended_adjust_B (w : World) :
  appended VariantB._adjust w = [rpc_of B (document w)].
Proof.
  unfold appended; rewrite adjust_B_exec; simpl trace.
  apply skipn_length_app.
Qed.

(** C1, as stated, fails: the width is not exactly the sum for every
    non-negative assignment. With left and right margins of 0.1px around
    a scroll width of 300 the five values are non-negative numbers, and
    the width forwarded is neither their sum nor the Number nearest it:
    each of the four additions rounds. *)
Lemma fractional_margins_are_rounded :
  let d := Samples.page_fractional in
  forallb nonneg (width_parts d) = true
  /\ trace (exec VariantA._adjust (boot d)) =
     [RpcAdjustWindowToContent
        (S754_finite false 5281174250533684 (-44)) (of_Z 200)]
  /\ is_exact_sum (S754_finite false 5281174250533684 (-44)) (width_parts d)
     = false
  /\ option_map nearest (exact_sum (width_parts d))
     = Some (S754_finite false 5281174250533683 (-44)).
Proof. repeat split. Qed.

(** C1, amended. Variant A's [_adjust] forwards, as width, the sum left
    margin + left border + scrollWidth + right border + right margin of
    the body as the script evaluates it, from left to right on Numbers,
    each addition rounded to binary64, over the parsed computed-style
    values; and, as height, exactly the height of the root element's
    bounding client rect. Where the five values are non-negative integers
    with a sum below 2^53 the width is exactly their sum; with 10, 2, 300,
    2 and 10 it is 324. *)
Theorem variant_A_width_is_the_sum (w : World) :
  let d := document w in
  let s := computedStyle (body d) in
  let ml := parseFloat (marginLeft s) in
  let bl := parseFloat (borderLeft s) in
  let br := parseFloat (borderRight s) in
  let mr := parseFloat (marginRight s) in
  let width := ml + bl + scrollWidth (body d) + br + mr in
  trace (exec VariantA._adjust w) =
    trace w ++
    [RpcAdjustWindowToContent
       width (height (boundingClientRect (documentElement d)))]
  /\ (forall a b c e f : Z,
        (0 <= a)%Z -> (0 <= b)%Z -> (0 <= c)%Z -> (0 <= e)%Z -> (0 <= f)%Z ->
        (a + b + c + e + f < 2 ^ 53)%Z ->
        ml = of_Z a -> bl = of_Z b -> scrollWidth (body d) = of_Z c ->
        br = of_Z e -> mr = of_Z f ->
        width = of_Z (a + b + c + e + f)%Z)
  /\ (ml = of_Z 10 -> bl = of_Z 2 -> scrollWidth (body d) = of_Z 300 ->
      br = of_Z 2 -> mr = of_Z 10 -> width = of_Z 324).
Proof.
  intros d s ml bl br mr width.
  split; [reflexivity | split].
  - intros a b c e f Ha Hb Hc He Hf Hsum Hml Hbl Hsw Hbr Hmr; subst width.
    rewrite Hml, Hbl, Hsw, Hbr, Hmr.
    apply add_of_Z_5; assumption.
  - intros Hml Hbl Hsw Hbr Hmr; subst width.
    rewrite Hml, Hbl, Hsw, Hbr, Hmr. reflexivity.
Qed.

Lemma variant_A_width_is_the_sum_witness :
  (trace (exec VariantA._adjust (boot Samples.framed)) =
   [RpcAdjustWindowToContent (of_Z 324) (of_Z 200)]
   /\ is_exact_sum (of_Z 324) (width_parts Samples.framed) = true)
  /\ fst (forwarded A Samples.page) = of_Z (8 + 0 + 384 + 0 + 8)%Z.
Proof.
  split; [ split; [ | reflexivity ] | ].
  - destruct (variant_A_width_is_the_sum (boot Samples.framed)) as [Ht [_ Hw]].
    specialize (Hw eq_refl eq_refl eq_refl eq_refl eq_refl).
    exact (eq_trans Ht
             (f_equal (fun x => [RpcAdjustWindowToContent x (of_Z 200)]) Hw)).
  - destruct (variant_A_width_is_the_sum (boot Samples.page)) as [_ [Hz _]].
    apply (Hz 8 0 384 0 8)%Z; try reflexivity; lia.
Defined.

(** C2. Variant B's [_adjust] forwards twice the root element's
    offsetWidth and twice its offsetHeight, in that order. Where the two
    offsets are non-negative integers below 2^52 the forwarded values are
    the Numbers of their doubles; with 400 and 200 the forwarded pair is
    (800, 400). *)
Theorem variant_B_forwards_twice_the_offsets (w : World) :
  let ow := offsetWidth (documentElement (document w)) in
  let oh := offsetHeight (documentElement (document w)) in
  trace (exec VariantB._adjust w) =
    trace w ++ [RpcAdjustWindowToContent (of_Z 2 * ow) (of_Z 2 * oh)]
  /\ (forall a b : Z,
        (0 <= a)%Z -> (2 * a < 2 ^ 53)%Z ->
        (0 <= b)%Z -> (2 * b < 2 ^ 53)%Z ->
        ow = of_Z a -> oh = of_Z b ->
        (of_Z 2 * ow, of_Z 2 * oh) = (of_Z (2 * a)%Z, of_Z (2 * b)%Z))
  /\ (ow = of_Z 400 -> oh = of_Z 200 ->
      (of_Z 2 * ow, of_Z 2 * oh) = (of_Z 800, of_Z 400)).
Proof.
  intros ow oh.
  split; [ | split ].
  - rewrite adjust_B_exec; simpl trace.
    rewrite (mul_comm (of_Z 2) ow), (mul_comm (of_Z 2) oh). reflexivity.
  - intros a b Ha Ha2 Hb Hb2 Hw Hh. rewrite Hw, Hh.
    rewrite !(mul_comm (of_Z 2)), !mul_two_of_Z by assumption. reflexivity.
  - intros Hw Hh. rewrite Hw, Hh. reflexivity.
Qed.

Lemma variant_B_forwards_twice_the_offsets_witness :
  trace (exec VariantB._adjust (boot Samples.framed)) =
  [RpcAdjustWindowToContent (of_Z 800) (of_Z 400)]
  /\ forwarded B Samples.page_root_grown = (of_Z (2 * 400)%Z, of_Z (2 * 300)%Z).
Proof.
  split.
  - destruct (variant_B_forwards_twice_the_offsets (boot Samples.framed))
      as [Ht [_ Hp]].
    specialize (Hp eq_refl eq_refl).
    exact (eq_trans Ht
             (f_equal (fun p => [RpcAdjustWindowToContent (fst p) (snd p)]) Hp)).
  - destruct (variant_B_forwards_twice_the_offsets (boot Samples.page_root_grown))
      as [_ [Hz _]].
    rewrite <- (Hz 400 300)%Z; try reflexivity; lia.
Defined.

(** C3. The two variants are different policies: on one and the same
    document, measured in isolation or driven by the same events, they
    forward different pairs. *)
Theorem variants_disagree :
  exists d : Document,
    calls (trace (exec VariantA._adjust (boot d))) <>
    calls (trace (exec VariantB._adjust (boot d)))
    /\ calls (trace (execution A d [Load; Render d])) = [forwarded A d]
    /\ calls (trace (execution B d [Load; Render d])) = [forwarded B d]
    /\ forwarded A d <> forwarded B d.
Proof.
  exists Samples.page. repeat split; try reflexivity.
  - vm_compute. discriminate.
  - vm_compute. discriminate.
Qed.

End Measurement.

(* ===================================================================== *)
(** ** When the forwarding call happens *)
(* ===================================================================== *)

Section Timing.

(** C4, as stated, fails: the handler assigned to [onload] installs the
    observer and does not call [_adjust]; after the load signal alone no
    forwarding call has been made. *)
Lemma load_alone_forwards_nothing :
  ~ one_call_per_signal (trace (execution A Samples.page [Load])).
Proof. vm_compute. discriminate. Qed.

(** C4, amended. In every execution of either variant each notification
    delivered by the observer is answered at once by exactly one
    forwarding call, no forwarding call has another origin (the load
    signal is answered by none), so that the calls are as many as the
    notifications. *)
Theorem one_call_per_notification (v : Variant) (d : Document) (events : list Event) :
  let t := trace (execution v d events) in
  paired t = true /\ count is_rpc t = count is_notification t.
Proof.
  intros t.
  pose proof (inv_paired (invariant_execution v d events)) as Hp.
  split; [exact Hp | ].
  exact (eq_trans (paired_from_counts _ false Hp) (Nat.add_0_r _)).
Qed.

Lemma calls_nil_before_load (t : list TraceItem) :
  rpc_before_load t = false -> loaded t = false -> calls t = [].
Proof.
  induction t as [ | i t IH ]; simpl; [reflexivity | ].
  destruct i; simpl; intros Hr Hl; try discriminate; auto.
Qed.

(** C5. In every execution of either variant no forwarding call precedes
    the dispatch of the load signal; as long as the load signal has not
    been dispatched, no call has been forwarded at all. *)
Theorem no_call_before_load (v : Variant) (d : Document) (events : list Event) :
  let t := trace (execution v d events) in
  rpc_before_load t = false /\ (loaded t = false -> calls t = []).
Proof.
  intros t.
  pose proof (inv_no_early_call (invariant_execution v d events)) as Hr.
  split; [exact Hr | ].
  apply calls_nil_before_load; exact Hr.
Qed.

Lemma no_call_before_load_witness :
  calls (trace (execution B Samples.page
                  [Render Samples.page; Render Samples.page_root_grown])) = [].
Proof.
  apply (no_call_before_load B Samples.page
           [Render Samples.page; Render Samples.page_root_grown]).
  reflexivity.
Defined.

End Timing.

(* ===================================================================== *)
(** ** Which element is observed *)
(* ===================================================================== *)

Section Observation.

(** C8, as stated, fails for variant B: its [onload] passes
    [document.body] to [observe], not the root element. *)
Lemma variant_B_observes_the_body :
  ~ Forall (observes_only DocumentElement)
      (resizeObservers (execution B Samples.page [Load])).
Proof.
  intros H. inversion H as [ | ob obs Hob _ ]; subst.
  discriminate Hob.
Qed.

(** With variant B a change of the root element's box alone triggers no
    measurement. *)
Example variant_B_misses_root_changes :
  calls (trace (execution B Samples.page
                  [Load; Render Samples.page; Render Samples.page_root_grown]))
  = [forwarded B Samples.page]
  /\ calls (trace (execution A Samples.page
                     [Load; Render Samples.page; Render Samples.page_root_grown]))
     = [forwarded A Samples.page; forwarded A Samples.page_root_grown].
Proof. split; reflexivity. Qed.

(** C8, amended. The observer installed by [onload] is registered on
    the root element in variant A and on the body element in variant B;
    in every execution the observers observe exactly that element, and
    the notifications that trigger measurement are notifications of that
    element's box changes. *)
Theorem observer_registration (v : Variant) (d : Document) (events : list Event) :
  let n := match v with A => DocumentElement | B => Body end in
  (forall w : World,
      resizeObservers (exec (call v OnloadHandler []) w) =
      resizeObservers w ++ [installed_observer n])
  /\ Forall (observes_only n) (resizeObservers (execution v d events))
  /\ Forall (notifies_only n) (trace (execution v d events)).
Proof.
  intros n.
  assert (Hn : n = observed v) by (destruct v; reflexivity).
  rewrite Hn; clear n Hn.
  pose proof (invariant_execution v d events) as [_ Hobs _ He _ _].
  split; [ intros w; rewrite call_onload; reflexivity | ].
  split; [ | exact He ].
  eapply Forall_impl; [ | exact Hobs ].
  intros ob [_ Ht]; exact Ht.
Qed.

End Observation.

(* ===================================================================== *)
(** ** The values forwarded *)
(* ===================================================================== *)

Section Values.

Local Open Scope number_scope.

(** C6, as stated, fails: where the border shorthands of the computed
    style are serialised as the empty string, variant A forwards NaN as
    the width. *)
Lemma nan_width_breaks_dimensions :
  calls (trace (exec VariantA._adjust (boot Samples.page_without_shorthands)))
  = [(nan, of_Z 200)]
  /\ forallb dimensions_ok
       (calls (trace (exec VariantA._adjust
                        (boot Samples.page_without_shorthands)))) = false.
Proof. split; reflexivity. Qed.

(** C6, amended. Variant B forwards a pair of non-negative numbers
    whenever the offsets it reads are non-negative numbers; variant A
    does whenever the four parsed left and right style values, the
    scroll width and the rect height it reads are non-negative numbers.
    Non-negative is [x >= 0] on Numbers: it excludes NaN and admits
    +Infinity. *)
Theorem forwarded_dimensions_nonneg (d : Document) :
  let s := computedStyle (body d) in
  (nonneg (parseFloat (marginLeft s)) = true ->
   nonneg (parseFloat (borderLeft s)) = true ->
   nonneg (scrollWidth (body d)) = true ->
   nonneg (parseFloat (borderRight s)) = true ->
   nonneg (parseFloat (marginRight s)) = true ->
   nonneg (height (boundingClientRect (documentElement d))) = true ->
   forall w, document w = d ->
     exists p, appended VariantA._adjust w
               = [RpcAdjustWindowToContent (fst p) (snd p)]
               /\ dimensions_ok p = true)
  /\
  (nonneg (offsetWidth (documentElement d)) = true ->
   nonneg (offsetHeight (documentElement d)) = true ->
   forall w, document w = d ->
     exists p, appended VariantB._adjust w
               = [RpcAdjustWindowToContent (fst p) (snd p)]
               /\ dimensions_ok p = true).
Proof.
  intros s; split.
  - intros Hml Hbl Hsw Hbr Hmr Hh w Hw.
    exists (forwarded A d).
    rewrite appended_adjust_A, Hw. split; [reflexivity | ].
    unfold dimensions_ok; simpl. fold s.
    rewrite Hh, andb_true_r.
    repeat apply add_nonneg; assumption.
  - intros How Hoh w Hw.
    exists (forwarded B d).
    rewrite appended_adjust_B, Hw. split; [reflexivity | ].
    unfold dimensions_ok; simpl.
    rewrite !mul_two_nonneg by assumption. reflexivity.
Qed.

Lemma forwarded_dimensions_nonneg_witness :
  (exists p, appended VariantA._adjust (boot Samples.framed)
             = [RpcAdjustWindowToContent (fst p) (snd p)]
             /\ dimensions_ok p = true)
  /\
  (exists p, appended VariantB._adjust (boot Samples.framed)
             = [RpcAdjustWindowToContent (fst p) (snd p)]
             /\ dimensions_ok p = true).
Proof.
  destruct (forwarded_dimensions_nonneg Samples.framed) as [HA HB].
  split.
  - apply HA; reflexivity.
  - apply HB; reflexivity.
Defined.

(** C7, as stated, fails for the top and bottom values: they are parsed
    and never used, so a NaN among them does not reach the call. *)
Lemma nan_top_margin_is_dropped :
  isNaN (parseFloat
           (marginTop (computedStyle (body Samples.page_with_auto_top))))
  = true
  /\ trace (exec VariantA._adjust (boot Samples.page_with_auto_top))
     = [RpcAdjustWindowToContent (of_Z 400) (of_Z 200)]
  /\ isNaN (of_Z 400) = false.
Proof. repeat split. Qed.

Lemma add_nan_chain (a b c e f : number) :
  isNaN a || isNaN b || isNaN e || isNaN f = true ->
  a + b + c + e + f = nan.
Proof.
  intros H.
  apply orb_prop in H; destruct H as [H | H];
    [ apply orb_prop in H; destruct H as [H | H];
      [ apply orb_prop in H; destruct H as [H | H] | ] | ];
    apply isNaN_true in H; subst;
    rewrite ?add_nan_r, ?add_nan_l; reflexivity.
Qed.

(** C7, amended. If in variant A the computed value of the body's left
    or right margin, or left or right border, parses to NaN, [_adjust]
    makes the forwarding call all the same, with NaN as the width and the
    rect height as the height: nothing is checked and no call is
    skipped. The top and bottom values are parsed and never used: two
    documents that agree on the left and right values, the scroll width
    and the rect height get the same call, whatever their top and bottom
    values parse to, NaN included. *)
Theorem nan_flows_into_width (w : World) :
  let d := document w in
  let s := computedStyle (body d) in
  (isNaN (parseFloat (marginLeft s)) || isNaN (parseFloat (borderLeft s))
   || isNaN (parseFloat (borderRight s)) || isNaN (parseFloat (marginRight s))
   = true ->
   trace (exec VariantA._adjust w) =
   trace w ++
   [RpcAdjustWindowToContent
      nan (height (boundingClientRect (documentElement d)))])
  /\ (forall w' : World,
        let d' := document w' in
        let s' := computedStyle (body d') in
        marginLeft s' = marginLeft s -> borderLeft s' = borderLeft s ->
        borderRight s' = borderRight s -> marginRight s' = marginRight s ->
        scrollWidth (body d') = scrollWidth (body d) ->
        height (boundingClientRect (documentElement d'))
        = height (boundingClientRect (documentElement d)) ->
        appended VariantA._adjust w' = appended VariantA._adjust w).
Proof.
  intros d s; split.
  - intros H.
    rewrite adjust_A_exec; simpl trace. fold d s.
    rewrite (add_nan_chain _ _ (scrollWidth (body d)) _ _ H). reflexivity.
  - intros w' d' s' Hml Hbl Hbr Hmr Hsw Hh.
    rewrite !appended_adjust_A. unfold rpc_of, forwarded.
    fold d' s' d s. rewrite Hml, Hbl, Hbr, Hmr, Hsw, Hh. reflexivity.
Qed.

Lemma nan_flows_into_width_witness :
  trace (exec VariantA._adjust (boot Samples.page_without_shorthands)) =
  [RpcAdjustWindowToContent nan (of_Z 200)]
  /\ appended VariantA._adjust (boot Samples.page_with_auto_top)
     = appended VariantA._adjust (boot Samples.page).
Proof.
  split.
  - apply (nan_flows_into_width (boot Samples.page_without_shorthands)).
    reflexivity.
  - apply (nan_flows_into_width (boot Samples.page));
      reflexivity.
Defined.

End Values.

(* ===================================================================== *)
(** ** Frame and determinism of [_adjust] *)
(* ===================================================================== *)

Section Frame.

(** C9. In both variants a call of [_adjust] leaves the document, the
    [onload] global and the observers as they were; its one effect is a
    single forwarding call, appended to the trace. *)
Theorem adjust_only_forwards (v : Variant) (w : World) :
  let _adjust := match v with
                 | A => VariantA._adjust
                 | B => VariantB._adjust
                 end in
  let w' := exec _adjust w in
  document w' = document w
  /\ window_onload w' = window_onload w
  /\ resizeObservers w' = resizeObservers w
  /\ trace w' =
     trace w ++
     [RpcAdjustWindowToContent (fst (forwarded v (document w)))
                               (snd (forwarded v (document w)))]
  /\ count is_rpc (appended _adjust w) = 1%nat.
Proof.
  destruct v; simpl.
  - rewrite appended_adjust_A. repeat split.
  - rewrite appended_adjust_B. repeat split.
Qed.

(** C10. The measurement is deterministic: two calls of [_adjust] that
    read the same values forward the same pair. Variant A reads the
    body's computed style and scroll width and the root element's
    bounding rect; variant B reads the root element's offsets. *)
Theorem adjust_deterministic (w1 w2 : World) :
  let d1 := document w1 in
  let d2 := document w2 in
  (computedStyle (body d1) = computedStyle (body d2) ->
   scrollWidth (body d1) = scrollWidth (body d2) ->
   boundingClientRect (documentElement d1)
   = boundingClientRect (documentElement d2) ->
   appended VariantA._adjust w1 = appended VariantA._adjust w2)
  /\
  (offsetWidth (documentElement d1) = offsetWidth (documentElement d2) ->
   offsetHeight (documentElement d1) = offsetHeight (documentElement d2) ->
   appended VariantB._adjust w1 = appended VariantB._adjust w2).
Proof.
  intros d1 d2; split.
  - intros Hs Hw Hr. rewrite !appended_adjust_A.
    unfold rpc_of, forwarded. fold d1 d2. rewrite Hs, Hw, Hr. reflexivity.
  - intros Hw Hh. rewrite !appended_adjust_B.
    unfold rpc_of, forwarded. fold d1 d2. rewrite Hw, Hh. reflexivity.
Qed.

Lemma adjust_deterministic_witness :
  appended VariantA._adjust (boot Samples.page)
  = appended VariantA._adjust
      (execution A Samples.page [Load; Render Samples.page])
  /\ appended VariantB._adjust (boot Samples.page)
     = appended VariantB._adjust (boot Samples.page_with_auto_top).
Proof.
  split.
  - apply (adjust_deterministic
             (boot Samples.page)
             (execution A Samples.page [Load; Render Samples.page]));
      reflexivity.
  - exact (proj2 (adjust_deterministic
                    (boot Samples.page) (boot Samples.page_with_auto_top))
                 eq_refl eq_refl).
Defined.

End Frame.

(* ===================================================================== *)
(** ** Style strings, as variant A parses them *)
(* ===================================================================== *)

Section StyleStrings.

Local Open Scope number_scope.

Ltac each_digit d H :=
  let Hd := fresh "Hd" in
  assert (Hd : (d = 0 \/ d = 1 \/ d = 2 \/ d = 3 \/ d = 4 \/ d = 5 \/ d = 6
                \/ d = 7 \/ d = 8 \/ d = 9)%Z) by lia;
  clear H;
  repeat (destruct Hd as [Hd | Hd]; [subst d | ]); [ .. | subst d ].

Ltac each_ascii c :=
  let b0 := fresh in let b1 := fresh in let b2 := fresh in
  let b3 := fresh in let b4 := fresh in let b5 := fresh in
  let b6 := fresh in let b7 := fresh in
  destruct c as [b0 b1 b2 b3 b4 b5 b6 b7];
  destruct b0, b1, b2, b3, b4, b5, b6, b7.

Lemma digit_of_digit_char (d : Z) :
  (0 <= d <= 9)%Z -> digit_of (digit_char d) = Some d.
Proof. intros H. each_digit d H; reflexivity. Qed.

Lemma decimal_from_nonneg (ds : list Z) :
  Forall (fun d => 0 <= d <= 9)%Z ds ->
  forall acc, (0 <= acc)%Z ->
              (0 <= fold_left (fun acc d => 10 * acc + d) ds acc)%Z.
Proof.
  induction 1 as [ | d ds Hd _ IH ]; intros acc Hacc; cbn [fold_left];
    [exact Hacc | ].
  cbv beta in Hd. apply IH; lia.
Qed.

Lemma decimal_nonneg (ds : list Z) :
  Forall (fun d => 0 <= d <= 9)%Z ds -> (0 <= decimal ds)%Z.
Proof. intros H; apply decimal_from_nonneg; [exact H | lia]. Qed.

Lemma unit_suffix_no_digit (suffix : string) :
  is_unit_suffix suffix = true -> span_digits suffix = ([], suffix).
Proof.
  destruct suffix as [ | c r ]; simpl; [reflexivity | ].
  destruct (digit_of c); [discriminate | reflexivity].
Qed.

Lemma unit_suffix_no_point (suffix : string) :
  is_unit_suffix suffix = true ->
  match suffix with
  | String "."%char r => span_digits r
  | _ => ([], suffix)
  end = ([], suffix).
Proof.
  destruct suffix as [ | c r ]; [reflexivity | ].
  each_ascii c; intros H; try discriminate H; reflexivity.
Qed.

Lemma unit_suffix_no_exponent (suffix : string) :
  is_unit_suffix suffix = true -> parse_exponent suffix = 0%Z.
Proof.
  destruct suffix as [ | c r ]; [reflexivity | ].
  each_ascii c; intros H; try discriminate H; reflexivity.
Qed.

Lemma span_digits_digit_string (ds : list Z) (suffix : string) :
  Forall (fun d => 0 <= d <= 9)%Z ds ->
  is_unit_suffix suffix = true ->
  span_digits (digit_string ds ++ suffix) = (ds, suffix).
Proof.
  intros Hds Hs.
  induction Hds as [ | d ds Hd _ IH ]; simpl.
  - apply unit_suffix_no_digit, Hs.
  - rewrite (digit_of_digit_char Hd), IH. reflexivity.
Qed.

(** On a string that begins with a digit, [parseFloat] skips nothing,
    reads no sign and no [Infinity]. *)
Lemma parseFloat_digit_first (d : Z) (rest : string) :
  (0 <= d <= 9)%Z ->
  parseFloat (String (digit_char d) rest) =
  let '(ip, r1) := span_digits (String (digit_char d) rest) in
  let '(fp, r2) :=
    match r1 with
    | String "."%char r => span_digits r
    | _ => ([], r1)
    end in
  match ip ++ fp with
  | [] => nan
  | ds => scale10 false (decimal ds)
                  (parse_exponent r2 - Z.of_nat (List.length fp))
  end.
Proof. intros H. each_digit d H; reflexivity. Qed.

Lemma scale10_integer (n : Z) : (0 <= n)%Z -> scale10 false n 0 = of_Z n.
Proof.
  intros H. destruct n as [ | p | p ]; try lia; [reflexivity | ].
  unfold scale10. simpl Z.leb. cbv iota.
  change (Z.to_pos (10 ^ 0)) with 1%positive.
  rewrite Pos.mul_1_r. reflexivity.
Qed.

Lemma parseFloat_pixel_value (n : Z) (s : string) :
  pixel_value n s -> parseFloat s = of_Z n /\ (0 <= n)%Z.
Proof.
  intros (ds & suffix & -> & Hne & Hds & Hs & <-).
  split; [ | apply decimal_nonneg, Hds ].
  destruct ds as [ | d ds ]; [contradiction | ].
  pose proof (Forall_inv Hds) as Hd.
  change (digit_string (d :: ds) ++ suffix)%string
    with (String (digit_char d) (digit_string ds ++ suffix)).
  rewrite (parseFloat_digit_first _ Hd).
  change (String (digit_char d) (digit_string ds ++ suffix))
    with (digit_string (d :: ds) ++ suffix)%string.
  rewrite (@span_digits_digit_string _ _ Hds Hs).
  rewrite (unit_suffix_no_point _ Hs), (unit_suffix_no_exponent _ Hs).
  rewrite app_nil_r. simpl List.length. simpl Z.sub.
  apply scale10_integer, decimal_nonneg, Hds.
Qed.

Lemma parseFloat_keyword (s : string) :
  is_keyword s = true -> parseFloat s = nan.
Proof.
  destruct s as [ | c r ]; [reflexivity | ].
  each_ascii c; intros H; try discriminate H; reflexivity.
Qed.

End StyleStrings.

Section StyleStringsOfVariantA.

Local Open Scope number_scope.

(** X1. Where the computed values of the body's left and right margins
    and borders are non-negative integer lengths (decimal digits, then a
    unit or the rest of a shorthand), the scroll width is a non-negative
    integer, and the five sum to less than 2^53, variant A's [_adjust]
    forwards as width the Number of their integer sum: the unit suffixes
    and the shorthand tails are dropped and nothing is rounded. *)
Theorem pixel_styles_give_the_integer_sum (w : World) (a b c e f : Z) :
  let d := document w in
  let s := computedStyle (body d) in
  pixel_value a (marginLeft s) ->
  pixel_value b (borderLeft s) ->
  scrollWidth (body d) = of_Z c -> (0 <= c)%Z ->
  pixel_value e (borderRight s) ->
  pixel_value f (marginRight s) ->
  (a + b + c + e + f < 2 ^ 53)%Z ->
  trace (exec VariantA._adjust w) =
  trace w ++
  [RpcAdjustWindowToContent
     (of_Z (a + b + c + e + f)%Z)
     (height (boundingClientRect (documentElement d)))].
Proof.
  intros d s Ha Hb Hc Hc0 He Hf Hsum.
  apply parseFloat_pixel_value in Ha, Hb, He, Hf.
  destruct Ha as [Ha Ha0], Hb as [Hb Hb0], He as [He He0], Hf as [Hf Hf0].
  rewrite adjust_A_exec; simpl trace. fold d s.
  rewrite Ha, Hb, Hc, He, Hf.
  rewrite add_of_Z_5 by assumption. reflexivity.
Qed.

Lemma pixel_styles_give_the_integer_sum_witness :
  trace (exec VariantA._adjust (boot Samples.framed)) =
  [RpcAdjustWindowToContent (of_Z 324) (of_Z 200)].
Proof.
  apply (@pixel_styles_give_the_integer_sum
           (boot Samples.framed) 10 2 300 2 10)%Z;
    try reflexivity; try lia.
  - exists [1; 0]%Z, "px"%string.
    repeat split; try reflexivity; try discriminate.
    repeat constructor; lia.
  - exists [2]%Z, "px solid rgb(0, 0, 0)"%string.
    repeat split; try reflexivity; try discriminate.
    repeat constructor; lia.
  - exists [2]%Z, "px solid rgb(0, 0, 0)"%string.
    repeat split; try reflexivity; try discriminate.
    repeat constructor; lia.
  - exists [1; 0]%Z, "px"%string.
    repeat split; try reflexivity; try discriminate.
    repeat constructor; lia.
Defined.

(** X2. Where the computed value of the body's left or right margin or
    border is the empty string or a keyword, [parseFloat] finds no number
    in it and variant A's [_adjust] makes the forwarding call with NaN as
    the width. *)
Theorem keyword_style_gives_nan_width (w : World) :
  let d := document w in
  let s := computedStyle (body d) in
  is_keyword (marginLeft s) || is_keyword (borderLeft s)
  || is_keyword (borderRight s) || is_keyword (marginRight s) = true ->
  trace (exec VariantA._adjust w) =
  trace w ++
  [RpcAdjustWindowToContent
     nan (height (boundingClientRect (documentElement d)))].
Proof.
  intros d s H.
  rewrite adjust_A_exec; simpl trace. fold d s.
  rewrite (add_nan_chain _ _ (scrollWidth (body d)) _ _); [reflexivity | ].
  apply orb_prop in H; destruct H as [H | H];
    [ apply orb_prop in H; destruct H as [H | H];
      [ apply orb_prop in H; destruct H as [H | H] | ] | ];
    rewrite (parseFloat_keyword _ H); simpl;
    rewrite ?orb_true_r; reflexivity.
Qed.

Lemma keyword_style_gives_nan_width_witness :
  trace (exec VariantA._adjust
           (boot (Samples.with_body_style
                    (Samples.style "8px" "auto" "8px" "8px"
                       Samples.no_border Samples.no_border
                       Samples.no_border Samples.no_border)
                    Samples.page))) =
  [RpcAdjustWindowToContent nan (of_Z 200)].
Proof.
  apply (keyword_style_gives_nan_width
           (boot (Samples.with_body_style
                    (Samples.style "8px" "auto" "8px" "8px"
                       Samples.no_border Samples.no_border
                       Samples.no_border Samples.no_border)
                    Samples.page))).
  reflexivity.
Defined.

End StyleStringsOfVariantA.

(* ===================================================================== *)
(** ** The scaling of variant B *)
(* ===================================================================== *)

Section Doubling.

Local Open Scope number_scope.

(** A mantissa with [k] trailing zero bits at the exponent of its format
    rounds to itself, or overflows. *)
Lemma binary_round_aux_shifted (s : bool) (M : positive) (k e : Z) :
  (0 <= k)%Z ->
  fexp prec emax (Zpos (digits2_pos M) + k + e) = (e + k)%Z ->
  binary_round_aux prec emax s (Zpos (shl M k)) e loc_Exact
  = if (e + k <=? emax - prec)%Z then S754_finite s M (e + k)
    else S754_infinity s.
Proof.
  intros Hk Hfexp.
  unfold binary_round_aux.
  assert (H1 : shr_fexp prec emax (Zpos (shl M k)) e loc_Exact =
               ({| shr_m := Zpos M; shr_r := false; shr_s := false |},
                (e + k)%Z)).
  { unfold shr_fexp. simpl Zdigits2. rewrite digits_shl by exact Hk.
    rewrite Hfexp. replace (e + k - e)%Z with k by lia.
    destruct k as [ | p | p ]; simpl; try lia.
    - rewrite Z.add_0_r. reflexivity.
    - rewrite iter_shr_1_exact. reflexivity. }
  rewrite H1. simpl shr_m. simpl loc_of_shr_record. simpl round_nearest_even.
  assert (H2 : shr_fexp prec emax (Zpos M) (e + k) loc_Exact =
               ({| shr_m := Zpos M; shr_r := false; shr_s := false |},
                (e + k)%Z)).
  { unfold shr_fexp. simpl Zdigits2.
    replace (Zpos (digits2_pos M) + (e + k))%Z
      with (Zpos (digits2_pos M) + k + e)%Z by lia.
    rewrite Hfexp, Z.sub_diag. reflexivity. }
  rewrite H2. reflexivity.
Qed.

Lemma mul_two_normal (x : number) :
  is_normal x = true -> x * of_Z 2 = doubled x.
Proof.
  destruct x as [ s | s | | s m e ]; try (intros H; discriminate H).
  unfold is_normal, doubled. intros H.
  apply andb_prop in H; destruct H as [H He2].
  apply andb_prop in H; destruct H as [Hd He1].
  apply Z.eqb_eq in Hd. apply Z.leb_le in He1.
  change (of_Z 2) with (S754_finite false 4503599627370496 (-51)).
  unfold mul, SFmul. rewrite xorb_false_r.
  replace (m * 4503599627370496)%positive with (shl m 52)
    by (apply Pos2Z.inj; rewrite Pos2Z.inj_mul, shl_value by lia;
        reflexivity).
  rewrite binary_round_aux_shifted.
  - replace (e + -51 + 52)%Z with (e + 1)%Z by lia. reflexivity.
  - lia.
  - rewrite Hd. unfold fexp, emin, prec, emax. lia.
Qed.

Lemma mul_two_signed (s : bool) (x : number) :
  signed s x -> signed s (x * of_Z 2).
Proof.
  change (of_Z 2) with (S754_finite false 4503599627370496 (-51)).
  destruct x as [ s' | s' | | s' m e ]; simpl; intros H;
    try contradiction; subst s'; try apply xorb_false_r.
  unfold mul, SFmul. rewrite xorb_false_r.
  apply binary_round_aux_signed; lia.
Qed.

Lemma isNaN_mul_two (x : number) : isNaN (x * of_Z 2) = isNaN x.
Proof.
  destruct x as [ s | s | | s m e ]; try reflexivity.
  pose proof (mul_two_signed s (S754_finite s m e) eq_refl) as H.
  destruct (S754_finite s m e * of_Z 2); simpl in *;
    try reflexivity; contradiction.
Qed.

(** X3. On normal binary64 offsets the scaling of variant B is exact: the
    forwarded value has the mantissa of the offset at the next exponent,
    and only past the last exponent of the format is it the infinity of
    the same sign. *)
Theorem variant_B_doubles_normal_offsets_exactly (w : World) :
  let ow := offsetWidth (documentElement (document w)) in
  let oh := offsetHeight (documentElement (document w)) in
  is_normal ow = true -> is_normal oh = true ->
  trace (exec VariantB._adjust w) =
  trace w ++ [RpcAdjustWindowToContent (doubled ow) (doubled oh)].
Proof.
  intros ow oh Hw Hh.
  rewrite <- (mul_two_normal _ Hw), <- (mul_two_normal _ Hh).
  rewrite adjust_B_exec. reflexivity.
Qed.

Lemma variant_B_doubles_normal_offsets_exactly_witness :
  trace (exec VariantB._adjust (boot Samples.page)) =
  [RpcAdjustWindowToContent
     (S754_finite false 7036874417766400 (-43))
     (S754_finite false 7036874417766400 (-44))]
  /\ offsetWidth (documentElement Samples.page)
     = S754_finite false 7036874417766400 (-44).
Proof.
  split; [ | reflexivity ].
  apply (variant_B_doubles_normal_offsets_exactly (boot Samples.page));
    reflexivity.
Defined.

(** X4. Variant B forwards NaN exactly where the offset it read is NaN,
    and otherwise a value of the sign of the offset: the scaling neither
    produces nor hides a NaN, and a negative offset stays negative. *)
Theorem variant_B_keeps_nan_and_sign (w : World) :
  let ow := offsetWidth (documentElement (document w)) in
  let oh := offsetHeight (documentElement (document w)) in
  exists wd ht,
    trace (exec VariantB._adjust w) =
    trace w ++ [RpcAdjustWindowToContent wd ht]
    /\ isNaN wd = isNaN ow /\ isNaN ht = isNaN oh
    /\ (forall s, signed s ow -> signed s wd)
    /\ (forall s, signed s oh -> signed s ht).
Proof.
  intros ow oh.
  exists (ow * of_Z 2), (oh * of_Z 2).
  split; [ rewrite adjust_B_exec; reflexivity | ].
  split; [ apply isNaN_mul_two | ].
  split; [ apply isNaN_mul_two | ].
  split; intros s; apply mul_two_signed.
Qed.

Lemma variant_B_keeps_nan_and_sign_witness :
  exists wd ht,
    trace (exec VariantB._adjust (boot Samples.page)) =
    [RpcAdjustWindowToContent wd ht]
    /\ signed false wd /\ signed false ht.
Proof.
  destruct (variant_B_keeps_nan_and_sign (boot Samples.page))
    as (wd & ht & Ht & _ & _ & Hw & Hh).
  exists wd, ht.
  split; [exact Ht | ].
  split; [apply Hw | apply Hh]; reflexivity.
Defined.

End Doubling.

(* ===================================================================== *)
(** ** Rendering passes and the calls they cause *)
(* ===================================================================== *)

Section SizeComparison.

Lemma SFeqb_true_cases (x y : number) :
  SFeqb x y = true ->
  (exists s s', x = S754_zero s /\ y = S754_zero s') \/ x = y.
Proof.
  unfold SFeqb.
  destruct x as [ s | s | | s m e ], y as [ s' | s' | | s' m' e' ];
    simpl; intros H; try discriminate H;
    try (left; eauto; fail);
    try (destruct s; discriminate H); try (destruct s'; discriminate H);
    right; destruct s, s'; try discriminate H; try reflexivity;
    destruct (Z.compare_spec e e') as [ -> | _ | _ ]; try discriminate H;
    destruct (Pos.compare_cont Eq m m') eqn:Hm; try discriminate H;
    apply Pos.compare_eq in Hm; subst; reflexivity.
Qed.

Lemma SFeqb_zero_l (s s' : bool) (z : number) :
  SFeqb (S754_zero s) z = SFeqb (S754_zero s') z.
Proof. destruct z; reflexivity. Qed.

Lemma SFeqb_zero_r (s s' : bool) (z : number) :
  SFeqb z (S754_zero s) = SFeqb z (S754_zero s').
Proof. destruct z; reflexivity. Qed.

(** Numbers that compare equal compare alike with any third. *)
Lemma SFeqb_congr_r (x y z : number) :
  SFeqb x y = true -> SFeqb z x = SFeqb z y.
Proof.
  intros H. destruct (SFeqb_true_cases x y H) as [ (s & s' & -> & ->) | -> ].
  - apply SFeqb_zero_r.
  - reflexivity.
Qed.

Lemma Size_neqb_congr_r (a b c : Size) :
  Size_neqb a b = false -> Size_neqb c a = Size_neqb c b.
Proof.
  unfold Size_neqb, neqb. intros H.
  apply orb_false_elim in H; destruct H as [Hi Hb].
  apply negb_false_iff in Hi, Hb.
  rewrite (SFeqb_congr_r _ _ (inlineSize c) Hi).
  rewrite (SFeqb_congr_r _ _ (blockSize c) Hb).
  reflexivity.
Qed.

End SizeComparison.

Section Passes.

Variable v : Variant.

Lemma execution_snoc (d0 : Document) (events : list Event) (e : Event) :
  execution v d0 (events ++ [e]) =
  exec (dispatch v e) (execution v d0 events).
Proof.
  rewrite !execution_unfold. unfold run.
  generalize (exec (toplevel v) (boot d0)).
  induction events as [ | e' events IH ]; intros w0.
  - simpl app. rewrite exec_for_each_cons. reflexivity.
  - simpl app. rewrite !exec_for_each_cons. apply IH.
Qed.

Lemma count_loads_snoc (events : list Event) (e : Event) :
  count_loads (events ++ [e]) =
  (count_loads events + if is_load_event e then 1 else 0)%nat.
Proof.
  unfold count_loads. rewrite filter_app, length_app. simpl.
  destruct (is_load_event e); reflexivity.
Qed.

Lemma observers_are_loads (d0 : Document) (events : list Event) :
  List.length (resizeObservers (execution v d0 events)) = count_loads events.
Proof.
  induction events as [ | e events IH ] using rev_ind.
  - destruct v; reflexivity.
  - rewrite execution_snoc, count_loads_snoc, <- IH.
    pose proof (invariant_execution v d0 events) as Hinv.
    destruct e as [ | d ].
    + rewrite (dispatch_load v _ (inv_onload Hinv)). simpl.
      rewrite length_app. reflexivity.
    + pose proof (gather_script_observers d (inv_observers Hinv) 0) as Hg.
      rewrite dispatch_render
        by (eapply Forall_impl; [ | exact Hg ]; intros n [Hc _]; exact Hc).
      simpl. rewrite length_map. lia.
Qed.

Lemma calls_broadcast_trace (d : Document) (l : list (nat * Closure * list Node)) :
  calls (broadcast_trace v d l) = repeat (forwarded v d) (List.length l).
Proof.
  induction l as [ | n l IH ]; simpl; [reflexivity | ].
  rewrite IH. destruct (forwarded v d); reflexivity.
Qed.

Lemma calls_snoc (t1 t2 : list TraceItem) :
  calls (t1 ++ t2) = calls t1 ++ calls t2.
Proof.
  induction t1 as [ | i t1 IH ]; simpl; [reflexivity | ].
  destruct i; simpl; rewrite IH; reflexivity.
Qed.

(** Once a layout [d] has been broadcast, an observer of the script is
    active in a layout [d'] exactly if the observed box of [d'] differs
    from that of [d]. *)
Lemma active_after_report (d d' : Document) (ob : ResizeObserver) :
  script_observer v ob ->
  filter (is_active d') (observationTargets (mark_reported d ob)) =
  if Size_neqb (observed_box v d') (observed_box v d)
  then observationTargets (mark_reported d ob)
  else [].
Proof.
  intros [_ Ht].
  destruct (observationTargets ob) as [ | o [ | o' l ] ] eqn:Hobs;
    try discriminate Ht.
  injection Ht as Ht.
  unfold mark_reported; simpl observationTargets. rewrite Hobs. simpl map.
  assert (Ha : is_active d' (report d o) =
               Size_neqb (observed_box v d') (observed_box v d)).
  { unfold report. destruct (is_active d o) eqn:Hact.
    - unfold is_active, observed_box; simpl. rewrite Ht. reflexivity.
    - unfold is_active in *. unfold observed_box.
      destruct (lastReportedSize o) as [ reported | ]; [ | discriminate Hact ].
      rewrite Ht in *.
      symmetry. apply Size_neqb_congr_r, Hact. }
  simpl filter. rewrite Ha.
  destruct (Size_neqb (observed_box v d') (observed_box v d)); reflexivity.
Qed.

Lemma gather_after_report (d d' : Document) (obs : list ResizeObserver) :
  Forall (script_observer v) obs ->
  forall i,
    List.length (gather d' i (map (mark_reported d) obs)) =
    if Size_neqb (observed_box v d') (observed_box v d)
    then List.length obs else 0%nat.
Proof.
  induction 1 as [ | ob obs Hob _ IH ]; intros i.
  - simpl. destruct (Size_neqb _ _); reflexivity.
  - simpl map. cbn [gather].
    rewrite (active_after_report d d' Hob).
    specialize (IH (S i)).
    destruct Hob as [_ Ht].
    destruct (Size_neqb (observed_box v d') (observed_box v d));
      [ | exact IH ].
    unfold mark_reported at 1 2; simpl observationTargets.
    destruct (observationTargets ob) as [ | o l ]; [discriminate Ht | ].
    simpl. rewrite IH. reflexivity.
Qed.

(** The forwarding calls a rendering pass adds after a rendering pass. *)
Lemma calls_of_second_pass (d0 : Document) (events : list Event) (d d' : Document) :
  calls (trace (execution v d0 (events ++ [Render d; Render d']))) =
  calls (trace (execution v d0 (events ++ [Render d]))) ++
  if Size_neqb (observed_box v d') (observed_box v d)
  then repeat (forwarded v d') (count_loads events)
  else [].
Proof.
  change (events ++ [Render d; Render d'])
    with (events ++ [Render d] ++ [Render d']).
  rewrite app_assoc, (execution_snoc d0 (events ++ [Render d])).
  pose proof (invariant_execution v d0 (events ++ [Render d])) as Hinv1.
  pose proof (gather_script_observers d' (inv_observers Hinv1) 0) as Hg1.
  rewrite dispatch_render
    by (eapply Forall_impl; [ | exact Hg1 ]; intros n [Hc _]; exact Hc).
  simpl trace. rewrite calls_snoc, calls_broadcast_trace.
  f_equal.
  rewrite execution_snoc.
  pose proof (invariant_execution v d0 events) as Hinv.
  pose proof (gather_script_observers d (inv_observers Hinv) 0) as Hg.
  rewrite dispatch_render
    by (eapply Forall_impl; [ | exact Hg ]; intros n [Hc _]; exact Hc).
  simpl resizeObservers.
  rewrite (gather_after_report d d' (inv_observers Hinv) 0).
  rewrite observers_are_loads.
  destruct (Size_neqb (observed_box v d') (observed_box v d)); reflexivity.
Qed.

End Passes.

Section PassesOfAnExecution.

Variable v : Variant.

Lemma no_observer_without_load (d0 : Document) (events : list Event) :
  count_loads events = 0%nat ->
  resizeObservers (execution v d0 events) = [].
Proof.
  intros H. apply length_zero_iff_nil.
  rewrite observers_are_loads. exact H.
Qed.

Lemma no_trace_without_load (d0 : Document) (events : list Event) :
  count_loads events = 0%nat -> trace (execution v d0 events) = [].
Proof.
  induction events as [ | e events IH ] using rev_ind; intros H.
  - destruct v; reflexivity.
  - rewrite count_loads_snoc in H.
    destruct e as [ | d ]; simpl in H; [lia | ].
    assert (H0 : count_loads events = 0%nat) by lia.
    rewrite execution_snoc.
    rewrite dispatch_render
      by (rewrite (no_observer_without_load d0 events H0); constructor).
    simpl trace.
    rewrite (no_observer_without_load d0 events H0), (IH H0). reflexivity.
Qed.

(** X5. Every dispatch of the load signal runs the [onload] handler, which
    creates one more observer, and nothing ever removes one: in every
    execution the observers are as many as the load signals so far. *)
Theorem each_load_adds_an_observer (d0 : Document) (events : list Event) :
  List.length (resizeObservers (execution v d0 events)) = count_loads events
  /\ List.length (resizeObservers (execution v d0 (events ++ [Load])))
     = S (List.length (resizeObservers (execution v d0 events))).
Proof.
  split; [ apply observers_are_loads | ].
  rewrite !observers_are_loads, count_loads_snoc. simpl. lia.
Qed.

(** X6. The first measurement: at the first rendering pass after the load
    signal the script forwards the measurement of that layout, exactly
    once, whatever the size of the observed box; the rendering passes
    before the load signal forward nothing. *)
Theorem first_pass_after_load (d0 : Document) (before : list Event) (d : Document) :
  count_loads before = 0%nat ->
  calls (trace (execution v d0 (before ++ [Load; Render d]))) =
  [forwarded v d].
Proof.
  intros H.
  change (before ++ [Load; Render d]) with (before ++ [Load] ++ [Render d]).
  rewrite app_assoc, execution_snoc, execution_snoc.
  pose proof (invariant_execution v d0 before) as Hinv.
  rewrite (dispatch_load v _ (inv_onload Hinv)).
  rewrite (no_observer_without_load d0 before H).
  rewrite (no_trace_without_load d0 before H).
  rewrite dispatch_render.
  - simpl. destruct (forwarded v d); reflexivity.
  - simpl. repeat constructor.
Qed.

End PassesOfAnExecution.

Lemma first_pass_after_load_witness :
  calls (trace (execution A Samples.page
                  [Render Samples.page; Load; Render Samples.page_root_grown]))
  = [forwarded A Samples.page_root_grown]
  /\ calls (trace (execution B Samples.page_collapsed
                     [Load; Render Samples.page_collapsed]))
     = [(zero, zero)].
Proof.
  split.
  - exact (first_pass_after_load
             A Samples.page [Render Samples.page] Samples.page_root_grown
             eq_refl).
  - exact (first_pass_after_load
             B Samples.page_collapsed [] Samples.page_collapsed eq_refl).
Defined.

Section ChangeDetection.

(** X7. A rendering pass that leaves the content box of the observed
    element as the pass before left it causes no forwarding call,
    whatever else changed in the document. *)
Theorem unchanged_box_forwards_nothing
        (v : Variant) (d0 : Document) (events : list Event) (d d' : Document) :
  Size_neqb (observed_box v d') (observed_box v d) = false ->
  calls (trace (execution v d0 (events ++ [Render d; Render d']))) =
  calls (trace (execution v d0 (events ++ [Render d]))).
Proof.
  intros H. rewrite calls_of_second_pass, H. apply app_nil_r.
Qed.

Lemma unchanged_box_forwards_nothing_witness :
  calls (trace (execution B Samples.page
                  [Load; Render Samples.page; Render Samples.page_root_grown]))
  = calls (trace (execution B Samples.page [Load; Render Samples.page])).
Proof.
  exact (unchanged_box_forwards_nothing
           B Samples.page [Load] Samples.page Samples.page_root_grown eq_refl).
Defined.

(** X8. A rendering pass that changes the content box of the observed
    element causes one forwarding call per observer installed, that is
    per load signal dispatched before, and each carries the measurement
    of the new layout, not of an earlier one. *)
Theorem changed_box_forwards_the_new_measurement
        (v : Variant) (d0 : Document) (events : list Event) (d d' : Document) :
  Size_neqb (observed_box v d') (observed_box v d) = true ->
  calls (trace (execution v d0 (events ++ [Render d; Render d']))) =
  calls (trace (execution v d0 (events ++ [Render d])))
  ++ repeat (forwarded v d') (count_loads events).
Proof.
  intros H. rewrite calls_of_second_pass, H. reflexivity.
Qed.

Lemma changed_box_forwards_the_new_measurement_witness :
  calls (trace (execution A Samples.page
                  [Load; Render Samples.page; Render Samples.page_root_grown]))
  = calls (trace (execution A Samples.page [Load; Render Samples.page]))
    ++ [forwarded A Samples.page_root_grown].
Proof.
  exact (changed_box_forwards_the_new_measurement
           A Samples.page [Load] Samples.page Samples.page_root_grown eq_refl).
Defined.

End ChangeDetection.
